(** * Valuation models of the Student-Finance-Portfolio repository

    A shallow embedding of [src/models/dcf_model.py] (class [DCFModel]) and
    [src/models/comp_analysis.py] (class [CompAnalysis]), followed by the
    properties of the valuation pipelines.

    Conventions of the embedding.
    - A double is an exact rational or one of the IEEE special values
      (+inf, -inf, NaN): rounding and overflow are not modelled, the
      special values and the comparisons are.  Zero carries no sign.
    - A Python number remembers whether it is a built-in [float]/[int] or a
      [numpy.float64] taken out of a pandas object: both follow the same
      arithmetic except for a zero divisor, which raises
      [ZeroDivisionError] between built-in numbers and yields inf/NaN as
      soon as one operand is a numpy scalar.
    - A function that can raise returns a [result]; [dict]s are finite maps
      keyed by strings. *)

From Stdlib Require Import QArith Qcanon ZArith List Lqa Sorted.
From stdpp Require Import gmap strings list fin_maps.

Local Open Scope Qc_scope.

(** ** Doubles *)

Inductive xfloat : Type :=
  | Fin (q : Qc)
  | PInf
  | NInf
  | NaN.

Global Instance xfloat_eq_dec : EqDecision xfloat.
Proof. solve_decision. Defined.

(** Decimal literal [a/b]. *)
Definition dec (a : Z) (b : positive) : Qc := Q2Qc (a # b).

Definition is_nan (x : xfloat) : bool :=
  match x with NaN => true | _ => false end.

Definition is_zero (x : xfloat) : bool :=
  match x with Fin q => bool_decide (q = 0) | _ => false end.

Definition xopp (x : xfloat) : xfloat :=
  match x with
  | Fin q => Fin (- q)
  | PInf => NInf
  | NInf => PInf
  | NaN => NaN
  end.

Definition xadd (x y : xfloat) : xfloat :=
  match x, y with
  | NaN, _ | _, NaN => NaN
  | Fin a, Fin b => Fin (a + b)
  | PInf, NInf | NInf, PInf => NaN
  | PInf, _ | _, PInf => PInf
  | NInf, _ | _, NInf => NInf
  end.

Definition xsub (x y : xfloat) : xfloat := xadd x (xopp y).

(** Sign of a double other than NaN: [Lt] negative, [Eq] zero, [Gt] positive. *)
Definition xsign (x : xfloat) : comparison :=
  match x with
  | Fin q => q ?= 0
  | PInf => Gt
  | NInf => Lt
  | NaN => Eq
  end.

Definition inf_of_sign (s t : comparison) : xfloat :=
  match s, t with
  | Eq, _ | _, Eq => NaN
  | Lt, Lt | Gt, Gt => PInf
  | _, _ => NInf
  end.

Definition xmul (x y : xfloat) : xfloat :=
  match x, y with
  | NaN, _ | _, NaN => NaN
  | Fin a, Fin b => Fin (a * b)
  | _, _ => inf_of_sign (xsign x) (xsign y)
  end.

(** IEEE division: a zero divisor gives an infinity of the sign of the
    dividend, and NaN for 0/0. *)
Definition xdiv (x y : xfloat) : xfloat :=
  match x, y with
  | NaN, _ | _, NaN => NaN
  | Fin a, Fin b =>
      if bool_decide (b = 0) then inf_of_sign (a ?= 0) Gt else Fin (a / b)
  | Fin _, _ => Fin 0
  | _, Fin b => inf_of_sign (xsign x) (if bool_decide (b = 0) then Gt else b ?= 0)
  | _, _ => NaN
  end.

(** [x ** n] for a positive integer exponent, by repeated multiplication. *)
Fixpoint xpow (x : xfloat) (n : nat) : xfloat :=
  match n with
  | O => Fin 1
  | S k => xmul x (xpow x k)
  end.

(** [x < y]: every comparison with NaN is false. *)
Definition xlt (x y : xfloat) : bool :=
  match x, y with
  | NaN, _ | _, NaN => false
  | Fin a, Fin b => bool_decide (a < b)
  | NInf, NInf | PInf, _ | _, NInf => false
  | _, _ => true
  end.

Definition xle (x y : xfloat) : bool :=
  match x, y with
  | NaN, _ | _, NaN => false
  | Fin a, Fin b => bool_decide (a <= b)
  | NInf, _ | _, PInf => true
  | _, _ => false
  end.

(** ** Python numbers, values and exceptions *)

Inductive num : Type :=
  | Py (x : xfloat)     (* built-in float or int *)
  | Np (x : xfloat).    (* numpy.float64 *)

Global Instance num_eq_dec : EqDecision num.
Proof. solve_decision. Defined.

Definition val (n : num) : xfloat :=
  match n with Py x | Np x => x end.

Definition is_np (n : num) : bool :=
  match n with Np _ => true | Py _ => false end.

(** The result of a binary operation is a numpy scalar as soon as one
    operand is. *)
Definition lift2 (op : xfloat -> xfloat -> xfloat) (a b : num) : num :=
  if is_np a || is_np b then Np (op (val a) (val b)) else Py (op (val a) (val b)).

Definition nadd := lift2 xadd.
Definition nsub := lift2 xsub.
Definition nmul := lift2 xmul.
(** [a ** n] for a positive integer [n].  The power is exact: the
    [OverflowError] that a built-in float raises when the power leaves the
    range of doubles is outside the model, as rounding is. *)
Definition npow (a : num) (n : nat) : num :=
  match a with Py x => Py (xpow x n) | Np x => Np (xpow x n) end.
Definition nlt (a b : num) : bool := xlt (val a) (val b).

Inductive exn : Type :=
  | ZeroDivisionError
  | TypeError
  | KeyError
  | IndexError
  | ValueError.

Global Instance exn_eq_dec : EqDecision exn.
Proof. solve_decision. Defined.

Inductive result (A : Type) : Type :=
  | Ok (a : A)
  | Raise (e : exn).
Arguments Ok {A} a.
Arguments Raise {A} e.

Global Instance result_eq_dec {A} `{EqDecision A} : EqDecision (result A).
Proof. solve_decision. Defined.

Global Instance result_ret : MRet result := fun A a => Ok a.
Global Instance result_bind : MBind result := fun A B k r =>
  match r with
  | Ok a => k a
  | Raise e => Raise e
  end.

(** The [try: ... except: d] idiom with a bare [except]. *)
Definition try_except {A} (r : result A) (d : A) : A :=
  match r with Ok a => a | Raise _ => d end.

(** [a / b]: between built-in numbers a zero divisor raises. *)
Definition ndiv (a b : num) : result num :=
  if is_np a || is_np b then Ok (Np (xdiv (val a) (val b)))
  else if is_zero (val b) then Raise ZeroDivisionError
  else Ok (Py (xdiv (val a) (val b))).

(** The built-ins [min(a, b)] and [max(a, b)]: the first argument is kept
    unless the second compares strictly below (above) it. *)
Definition py_min (a b : num) : num := if nlt b a then b else a.
Definition py_max (a b : num) : num := if nlt a b then b else a.

(** The built-in [sum], which starts from the integer 0. *)
Definition py_sum (l : list num) : num := fold_left nadd l (Py (Fin 0)).

(** A value read from provider data: [None] or a number. *)
Inductive pyval : Type :=
  | VNone
  | VNum (n : num).

Global Instance pyval_eq_dec : EqDecision pyval.
Proof. solve_decision. Defined.

(** Truth value of an object in an [if]: [None] and zero are false, every
    other number (NaN included) is true. *)
Definition truthy (v : pyval) : bool :=
  match v with
  | VNone => false
  | VNum n => negb (is_zero (val n))
  end.

(** [a / b] on values: [None] as an operand raises [TypeError]. *)
Definition py_truediv (a b : pyval) : result pyval :=
  match a, b with
  | VNum x, VNum y => q ← ndiv x y; Ok (VNum q)
  | _, _ => Raise TypeError
  end.

(** [d.get(k)] and [d.get(k, default)]. *)
Definition dict_get (d : gmap string pyval) (k : string) : pyval :=
  default VNone (d !! k).
Definition dict_get_or (d : gmap string pyval) (k : string) (dflt : pyval) : pyval :=
  default dflt (d !! k).

(** ** pandas Series of doubles *)

(** [s.pct_change()]: the first entry is NaN, every later one is
    [s[i] / s[i-1] - 1] in numpy arithmetic. *)
Fixpoint pct_change_from (prev : xfloat) (s : list xfloat) : list xfloat :=
  match s with
  | [] => []
  | x :: r => xsub (xdiv x prev) (Fin 1) :: pct_change_from x r
  end.

Definition pct_change (s : list xfloat) : list xfloat :=
  match s with
  | [] => []
  | x :: r => NaN :: pct_change_from x r
  end.

(** [s.dropna()] on a Series of doubles. *)
Definition dropna (s : list xfloat) : list xfloat :=
  filter (fun x => is_nan x = false) s.

Fixpoint insert_sorted (x : xfloat) (s : list xfloat) : list xfloat :=
  match s with
  | [] => [x]
  | y :: r => if xle x y then x :: y :: r else y :: insert_sorted x r
  end.

(** Ascending sort, as [numpy] does before it picks the middle. *)
Definition sort_values (s : list xfloat) : list xfloat :=
  foldr insert_sorted [] s.

(** [s.median()]: NaN entries are skipped; the result is NaN on an empty
    Series, the middle value of the sorted entries for an odd count and
    the mean of the two middle values for an even count. *)
Definition median (s : list xfloat) : xfloat :=
  let v := sort_values (dropna s) in
  let n := length v in
  if (n =? 0)%nat then NaN
  else if Nat.odd n then nth (Nat.div n 2) v NaN
  else xdiv (xadd (nth (Nat.div n 2 - 1) v NaN) (nth (Nat.div n 2) v NaN)) (Fin 2).

(** ** [DCFModel] *)

(** What the provider ([yfinance.Ticker]) holds for one ticker: the series
    returned by [get_historical_fcf] (values in chronological order; only
    series of finite values are modelled), the balance sheet (row label to
    the values of the row, most recent first) and the [info] dictionary. *)
Record Ticker : Type := {
  historical_fcf : list Qc;
  balance_sheet : gmap string (list xfloat);
  info : gmap string pyval
}.

Record DCFModel : Type := {
  forecast_years : Z;
  terminal_growth_rate : num;
  wacc : num;
  stock : Ticker
}.

Record DCFResult : Type := {
  base_fcf : num;
  fcf_growth_rate : num;
  projected_fcf : list num;
  terminal_value : num;
  pv_terminal_value : num;
  enterprise_value : num;
  cash : num;
  debt : num;
  equity_value : num;
  shares_outstanding : num;
  intrinsic_value_per_share : num;
  current_price : num;
  upside_downside_pct : num;
  r_wacc : num;
  r_terminal_growth_rate : num
}.

Global Instance DCFResult_eq_dec : EqDecision DCFResult.
Proof. solve_decision. Defined.

Definition one : num := Py (Fin 1).
Definition zero : num := Py (Fin 0).

Definition calculate_fcf_growth_rate (fcf_historical : list Qc) : num :=
  if (length fcf_historical <? 2)%nat then Py (Fin (dec 5 100))
  else
    let growth_rates := dropna (pct_change (map Fin fcf_historical)) in
    let median_growth := Np (median growth_rates) in
    py_max (py_min median_growth (Py (Fin (dec 25 100)))) (Py (Fin (dec (-10) 100))).

(** The body of the [for year in range(1, forecast_years + 1)] loop, run
    [n] times. *)
Fixpoint project_loop (n : nat) (current_fcf growth_rate : num) : list num :=
  match n with
  | O => []
  | S k =>
      let current_fcf := nmul current_fcf (nadd one growth_rate) in
      current_fcf :: project_loop k current_fcf growth_rate
  end.

Definition project_fcf (self : DCFModel) (base_fcf growth_rate : num) : list num :=
  project_loop (Z.to_nat (forecast_years self)) base_fcf growth_rate.

Definition calculate_terminal_value (self : DCFModel) (final_fcf : num) : result num :=
  ndiv (nmul final_fcf (nadd one (terminal_growth_rate self)))
       (nsub (wacc self) (terminal_growth_rate self)).

(** [for t, cf in enumerate(cash_flows, start=t)]. *)
Fixpoint discount_loop (self : DCFModel) (t : nat) (cash_flows : list num)
  : result (list num) :=
  match cash_flows with
  | [] => Ok []
  | cf :: rest =>
      pv ← ndiv cf (npow (nadd one (wacc self)) t);
      pvs ← discount_loop self (S t) rest;
      Ok (pv :: pvs)
  end.

Definition discount_cash_flows (self : DCFModel) (cash_flows : list num)
  : result (list num) :=
  discount_loop self 1 cash_flows.

(** [s.iloc[-1]] and [l[-1]]. *)
Definition last_item {A} (l : list A) : result A :=
  match last l with
  | Some a => Ok a
  | None => Raise IndexError
  end.

(** [balance_sheet.loc[label].iloc[0]]. *)
Definition loc_iloc0 (sheet : gmap string (list xfloat)) (label : string) : result num :=
  match sheet !! label with
  | None => Raise KeyError
  | Some [] => Raise IndexError
  | Some (x :: _) => Ok (Np x)
  end.

(** The number held by a value of the [info] dictionary, at its first
    comparison [v > 0]: [None] raises [TypeError] there. *)
Definition as_num (v : pyval) : result num :=
  match v with
  | VNone => Raise TypeError
  | VNum n => Ok n
  end.

(** The run, from the point where [get_historical_fcf] has returned its
    series ([historical_fcf]); a failure of that call is modelled with
    [get_historical_fcf] itself, further down. *)
Definition calculate_enterprise_value (self : DCFModel) : result DCFResult :=
  let fcf_historical := historical_fcf (stock self) in
  base_fcf ← last_item (map (fun q => Np (Fin q)) fcf_historical);
  let growth_rate := calculate_fcf_growth_rate fcf_historical in
  let projected_fcf := project_fcf self base_fcf growth_rate in
  final_fcf ← last_item projected_fcf;
  terminal_value ← calculate_terminal_value self final_fcf;
  pv_fcf ← discount_cash_flows self projected_fcf;
  pv_terminal_value ←
    ndiv terminal_value (npow (nadd one (wacc self)) (Z.to_nat (forecast_years self)));
  let enterprise_value := nadd (py_sum pv_fcf) pv_terminal_value in
  let cash := try_except (loc_iloc0 (balance_sheet (stock self)) "Cash And Cash Equivalents") zero in
  let debt := try_except (loc_iloc0 (balance_sheet (stock self)) "Total Debt") zero in
  let equity_value := nsub (nadd enterprise_value cash) debt in
  shares_outstanding ← as_num (dict_get_or (info (stock self)) "sharesOutstanding" (VNum zero));
  intrinsic_value_per_share ←
    (if nlt zero shares_outstanding then ndiv equity_value shares_outstanding else Ok zero);
  current_price ← as_num (dict_get_or (info (stock self)) "currentPrice" (VNum zero));
  upside ←
    (if nlt zero current_price
     then q ← ndiv (nsub intrinsic_value_per_share current_price) current_price;
          Ok (nmul q (Py (Fin (dec 100 1))))
     else Ok zero);
  Ok {| base_fcf := base_fcf;
        fcf_growth_rate := growth_rate;
        projected_fcf := projected_fcf;
        terminal_value := terminal_value;
        pv_terminal_value := pv_terminal_value;
        enterprise_value := enterprise_value;
        cash := cash;
        debt := debt;
        equity_value := equity_value;
        shares_outstanding := shares_outstanding;
        intrinsic_value_per_share := intrinsic_value_per_share;
        current_price := current_price;
        upside_downside_pct := upside;
        r_wacc := wacc self;
        r_terminal_growth_rate := terminal_growth_rate self |}.

(** ** [CompAnalysis] *)

(** The metrics of one company as [_extract_metrics] builds them.  Its four
    descriptive entries (ticker, company, sector, industry) hold strings
    that no valuation step reads; they are left out of the map. *)
Definition _extract_metrics (info : gmap string pyval) : gmap string pyval :=
  let metrics : gmap string pyval := ∅ in
  let metrics := <["market_cap" := dict_get info "marketCap"]> metrics in
  let metrics := <["enterprise_value" := dict_get info "enterpriseValue"]> metrics in
  let metrics := <["price" := dict_get info "currentPrice"]> metrics in
  let metrics := <["pe_ratio" := dict_get info "trailingPE"]> metrics in
  let metrics := <["forward_pe" := dict_get info "forwardPE"]> metrics in
  let metrics := <["peg_ratio" := dict_get info "pegRatio"]> metrics in
  let metrics := <["price_to_book" := dict_get info "priceToBook"]> metrics in
  let metrics := <["price_to_sales" := dict_get info "priceToSalesTrailing12Months"]> metrics in
  let metrics := <["ev_to_revenue" := dict_get info "enterpriseToRevenue"]> metrics in
  let metrics := <["ev_to_ebitda" := dict_get info "enterpriseToEbitda"]> metrics in
  let metrics := <["revenue_growth" := dict_get info "revenueGrowth"]> metrics in
  let metrics := <["profit_margin" := dict_get info "profitMargins"]> metrics in
  let metrics := <["roe" := dict_get info "returnOnEquity"]> metrics in
  let metrics := <["debt_to_equity" := dict_get info "debtToEquity"]> metrics in
  let metrics := <["current_ratio" := dict_get info "currentRatio"]> metrics in
  metrics.

(** [target_data] is a metrics dictionary; [comp_data] is the DataFrame
    [pd.DataFrame(comp_metrics)], kept as the list of its rows.  Both are
    [None] until [fetch_data] has run. *)
Record CompAnalysis : Type := {
  target_data : option (gmap string pyval);
  comp_data : option (list (gmap string pyval))
}.

(** [fetch_data], given what the provider answers: the [info] of the
    target, and for every comp ticker its [info] or the exception raised
    while reading it, in which case the comp is skipped. *)
Definition fetch_data (target_info : gmap string pyval)
    (comp_infos : list (result (gmap string pyval))) : CompAnalysis :=
  let comp_metrics :=
    omap (fun c => match c with
                   | Ok i => Some (_extract_metrics i)
                   | Raise _ => None
                   end) comp_infos in
  {| target_data := Some (_extract_metrics target_info);
     comp_data := Some comp_metrics |}.

(** [df[col]]: the frame has a column for every key that occurs in some
    row, so a frame without rows has none and the lookup raises. *)
Definition has_column (df : list (gmap string pyval)) (col : string) : bool :=
  existsb (fun row => bool_decide (is_Some (row !! col))) df.

Definition column (df : list (gmap string pyval)) (col : string) : result (list pyval) :=
  if has_column df col then Ok (map (fun row => dict_get row col) df)
  else Raise KeyError.

Definition present (v : pyval) : option xfloat :=
  match v with
  | VNone => None
  | VNum n => if is_nan (val n) then None else Some (val n)
  end.

(** [s.dropna()] on a column: [None] and NaN entries go. *)
Definition dropna_values (s : list pyval) : list xfloat := omap present s.

Definition of_nat (n : nat) : xfloat := Fin (Qc_of_Z (Z.of_nat n)).

Definition series_sum (v : list xfloat) : xfloat := fold_left xadd v (Fin 0).

Definition series_mean (v : list xfloat) : xfloat :=
  xdiv (series_sum v) (of_nat (length v)).

Definition series_min (v : list xfloat) : xfloat :=
  match v with
  | [] => NaN
  | x :: r => fold_left (fun m y => if xlt y m then y else m) r x
  end.

Definition series_max (v : list xfloat) : xfloat :=
  match v with
  | [] => NaN
  | x :: r => fold_left (fun m y => if xlt m y then y else m) r x
  end.

(** The variance with [ddof = 1] (the pandas default): the squared
    deviations from the mean, summed and divided by [count - 1]; NaN when
    [count <= 1]. *)
Definition series_var (v : list xfloat) : xfloat :=
  if (length v <=? 1)%nat then NaN
  else
    let avg := series_mean v in
    xdiv (series_sum (map (fun x => xmul (xsub avg x) (xsub avg x)) v))
         (of_nat (length v - 1)).

(** A double given as the square root of another one.  The root of a
    rational need not be rational, so [s.std()] is kept in this form. *)
Inductive root : Type :=
  | Sqrt (x : xfloat).

Global Instance root_eq_dec : EqDecision root.
Proof. solve_decision. Defined.

Definition root_is_nan (r : root) : bool :=
  match r with
  | Sqrt NaN | Sqrt NInf => true
  | Sqrt PInf => false
  | Sqrt (Fin q) => bool_decide (q < 0)
  end.

Definition series_std (v : list xfloat) : root := Sqrt (series_var v).

(** One row of the DataFrame returned by [calculate_multiples]. *)
Record MultipleStat : Type := {
  multiple : string;
  stat_mean : pyval;
  stat_median : pyval;
  stat_min : pyval;
  stat_max : pyval;
  stat_std : option root;
  stat_count : nat
}.

Global Instance MultipleStat_eq_dec : EqDecision MultipleStat.
Proof. solve_decision. Defined.

Definition multiple_cols : list string :=
  ["pe_ratio"; "forward_pe"; "peg_ratio"; "price_to_book"; "price_to_sales";
   "ev_to_revenue"; "ev_to_ebitda"].

Definition column_stat (col : string) (values : list xfloat) : MultipleStat :=
  if (length values =? 0)%nat then
    {| multiple := col; stat_mean := VNone; stat_median := VNone;
       stat_min := VNone; stat_max := VNone; stat_std := None; stat_count := 0 |}
  else
    {| multiple := col;
       stat_mean := VNum (Np (series_mean values));
       stat_median := VNum (Np (median values));
       stat_min := VNum (Np (series_min values));
       stat_max := VNum (Np (series_max values));
       stat_std := Some (series_std values);
       stat_count := length values |}.

(** [for col in multiple_cols: ...], on the frame [df]. *)
Fixpoint stats_loop (df : list (gmap string pyval)) (cols : list string)
  : result (list MultipleStat) :=
  match cols with
  | [] => Ok []
  | col :: rest =>
      s ← column df col;
      let values := dropna_values s in
      stats ← stats_loop df rest;
      Ok (column_stat col values :: stats)
  end.

Definition calculate_multiples (self : CompAnalysis) : result (list MultipleStat) :=
  match comp_data self with
  | None => Raise ValueError
  | Some df => stats_loop df multiple_cols
  end.

(** The documented values of [method]. *)
Inductive method : Type :=
  | Mean
  | Median
  | Min
  | Max.

Global Instance method_eq_dec : EqDecision method.
Proof. solve_decision. Defined.

(** [row[method]]. *)
Definition stat_of (row : MultipleStat) (m : method) : pyval :=
  match m with
  | Mean => stat_mean row
  | Median => stat_median row
  | Min => stat_min row
  | Max => stat_max row
  end.

(** An entry of the [valuations] dictionary: implied price, or implied
    enterprise value, with the peer statistic used and the target's current
    value. *)
Inductive implied : Type :=
  | ImpliedPrice (implied_price comp_multiple : num) (current_price : pyval)
  | ImpliedEV (implied_ev comp_multiple : num) (current_ev : pyval).

Global Instance implied_eq_dec : EqDecision implied.
Proof. solve_decision. Defined.

Record Valuations : Type := {
  v_method : method;
  valuations : gmap string implied
}.

Global Instance Valuations_eq_dec : EqDecision Valuations.
Proof. solve_decision. Defined.

(** One turn of [for _, row in stats.iterrows()]. *)
Definition value_row (target : gmap string pyval) (m : method)
    (vals : gmap string implied) (row : MultipleStat) : result (gmap string implied) :=
  match present (stat_of row m) with
  | None => Ok vals
  | Some c =>
      let comp_multiple := Np c in
      if bool_decide (multiple row = "pe_ratio") then
        eps ← (if truthy (dict_get target "pe_ratio")
               then py_truediv (dict_get target "price") (dict_get target "pe_ratio")
               else Ok VNone);
        match eps with
        | VNum e =>
            if truthy eps
            then Ok (<["PE" := ImpliedPrice (nmul comp_multiple e) comp_multiple
                                            (dict_get target "price")]> vals)
            else Ok vals
        | VNone => Ok vals
        end
      else if bool_decide (multiple row = "price_to_book") then
        bvps ← (if truthy (dict_get target "price_to_book")
                then py_truediv (dict_get target "price") (dict_get target "price_to_book")
                else Ok VNone);
        match bvps with
        | VNum b =>
            if truthy bvps
            then Ok (<["P/B" := ImpliedPrice (nmul comp_multiple b) comp_multiple
                                             (dict_get target "price")]> vals)
            else Ok vals
        | VNone => Ok vals
        end
      else if bool_decide (multiple row = "ev_to_ebitda") then
        let target_ev_ebitda := dict_get target "ev_to_ebitda" in
        if truthy target_ev_ebitda then
          target_ebitda ← py_truediv (dict_get target "enterprise_value") target_ev_ebitda;
          match target_ebitda with
          | VNum e =>
              Ok (<["EV/EBITDA" := ImpliedEV (nmul comp_multiple e) comp_multiple
                                             (dict_get target "enterprise_value")]> vals)
          | VNone => Raise TypeError
          end
        else Ok vals
      else Ok vals
  end.

Fixpoint value_loop (target : gmap string pyval) (m : method)
    (vals : gmap string implied) (stats : list MultipleStat)
  : result (gmap string implied) :=
  match stats with
  | [] => Ok vals
  | row :: rest =>
      vals ← value_row target m vals row;
      value_loop target m vals rest
  end.

Definition value_target (self : CompAnalysis) (m : method) : result Valuations :=
  match target_data self, comp_data self with
  | Some target, Some _ =>
      stats ← calculate_multiples self;
      vals ← value_loop target m ∅ stats;
      Ok {| v_method := m; valuations := vals |}
  | _, _ => Raise ValueError
  end.

(** ** The cash-flow statement *)

(** [stock.cashflow]: the columns are reporting dates, the index holds the
    line items, every line has one value per date.  A Series taken out of
    the frame is the list of its (date, value) entries, in column order. *)
Record Statement : Type := {
  dates : list Z;
  lines : gmap string (list xfloat)
}.

(** [cash_flow.loc[label]]. *)
Definition loc (cash_flow : Statement) (label : string) : result (list (Z * xfloat)) :=
  match lines cash_flow !! label with
  | Some vs => Ok (zip (dates cash_flow) vs)
  | None => Raise KeyError
  end.

(** [a + b] on two lines of one frame: they carry the same dates, the
    values are added date by date. *)
Definition series_add (a b : list (Z * xfloat)) : list (Z * xfloat) :=
  zip_with (fun x y => (x.1, xadd x.2 y.2)) a b.

Fixpoint insert_by_date (e : Z * xfloat) (s : list (Z * xfloat)) : list (Z * xfloat) :=
  match s with
  | [] => [e]
  | y :: r => if (e.1 <=? y.1)%Z then e :: y :: r else y :: insert_by_date e r
  end.

(** [s.sort_index()]: ascending dates. *)
Definition sort_index (s : list (Z * xfloat)) : list (Z * xfloat) :=
  foldr insert_by_date [] s.

Definition get_historical_fcf (cash_flow : Statement) : result (list (Z * xfloat)) :=
  fcf ← (if bool_decide (is_Some (lines cash_flow !! "Free Cash Flow"))
         then loc cash_flow "Free Cash Flow"
         else
           ocf ← loc cash_flow "Operating Cash Flow";
           capex ← loc cash_flow "Capital Expenditure";
           Ok (series_add ocf capex));
  Ok (sort_index fcf).

(** ** Definitions used to state the properties *)


Definition in_range (lo hi x : xfloat) : bool := xle lo x && xle x hi.

Definition growth_floor : xfloat := Fin (dec (-10) 100).
Definition growth_cap : xfloat := Fin (dec 25 100).

(** A five-point series in which every value is twice the one before. *)
Definition doubling5 (x : Qc) : list Qc :=
  let a := 2 * x in
  let b := 2 * a in
  let c := 2 * b in
  let d := 2 * c in
  [x; a; b; c; d].

(** Ascending order on doubles. *)
Inductive ascending : list xfloat -> Prop :=
  | asc_nil : ascending []
  | asc_one x : ascending [x]
  | asc_cons x y l : xle x y = true -> ascending (y :: l) -> ascending (x :: y :: l).



(** A row of [comp_data] is a metrics dictionary. *)
Definition is_metrics (row : gmap string pyval) : Prop :=
  exists i, row = _extract_metrics i.

(** The peer [row] has no usable value for [col]. *)
Definition missing (col : string) (row : gmap string pyval) : Prop :=
  present (dict_get row col) = None.

(** The entry [k] of the valuations can only be written by the rule of
    the row [row], and only when the peer statistic is known and the
    multiple of the target is neither missing nor zero. *)
Definition rule_fires (target : gmap string pyval) (m : method)
    (row : MultipleStat) (k : string) : Prop :=
  is_Some (present (stat_of row m))
  /\ ((k = "PE" /\ multiple row = "pe_ratio"
       /\ truthy (dict_get target "pe_ratio") = true)
      \/ (k = "P/B" /\ multiple row = "price_to_book"
          /\ truthy (dict_get target "price_to_book") = true)
      \/ (k = "EV/EBITDA" /\ multiple row = "ev_to_ebitda"
          /\ truthy (dict_get target "ev_to_ebitda") = true)).



(** Sum, mean and sample variance (divisor [n - 1]) of rationals. *)
Definition qsum (l : list Qc) : Qc := foldr Qcplus 0 l.

Definition sample_mean (l : list Qc) : Qc :=
  qsum l / Qc_of_Z (Z.of_nat (length l)).

Definition sample_variance (l : list Qc) : Qc :=
  qsum (map (fun x => (x - sample_mean l) * (x - sample_mean l)) l)
  / Qc_of_Z (Z.of_nat (length l - 1)).

(** ** Example inputs *)

Definition model_3y : DCFModel :=
  {| forecast_years := 3;
     terminal_growth_rate := Py (Fin (dec 25 1000));
     wacc := Py (Fin (dec 10 100));
     stock := {| historical_fcf := []; balance_sheet := ∅; info := ∅ |} |}.

Definition provider (h : list Qc) (sheet : gmap string (list xfloat))
    (i : gmap string pyval) : Ticker :=
  {| historical_fcf := h; balance_sheet := sheet; info := i |}.

Definition py_dec (a : Z) (b : positive) : num := Py (Fin (dec a b)).
Definition np_dec (a : Z) (b : positive) : num := Np (Fin (dec a b)).

(** A history whose last value is 100 and whose percentage changes
    (0.10, -1/11, 1.00) have median 0.10. *)
Definition history_100 : list Qc := [dec 50 1; dec 55 1; dec 50 1; dec 100 1].

(** The end-to-end scenario: horizon 2, wacc 0.10, terminal growth 0.025,
    cash 50, debt 20, 100 shares, price 10. *)
Definition scenario : DCFModel :=
  {| forecast_years := 2;
     terminal_growth_rate := py_dec 25 1000;
     wacc := py_dec 10 100;
     stock := provider history_100
                {[ "Cash And Cash Equivalents" := [Fin (dec 50 1)];
                   "Total Debt" := [Fin (dec 20 1)] ]}
                {[ "sharesOutstanding" := VNum (py_dec 100 1);
                   "currentPrice" := VNum (py_dec 10 1) ]} |}.


(** wacc = 0.02 below the terminal growth rate 0.025. *)
Definition model_low_wacc : DCFModel :=
  {| forecast_years := 2;
     terminal_growth_rate := py_dec 25 1000;
     wacc := py_dec 2 100;
     stock := provider history_100 ∅ ∅ |}.

(** wacc equal to the terminal growth rate. *)
Definition model_equal_rates : DCFModel :=
  {| forecast_years := 2;
     terminal_growth_rate := py_dec 25 1000;
     wacc := py_dec 25 1000;
     stock := provider history_100 ∅ ∅ |}.

(** The values the end-to-end scenario is expected to produce. *)
Definition scenario_result : DCFResult :=
  {| base_fcf := np_dec 100 1;
     fcf_growth_rate := np_dec 10 100;
     projected_fcf := [np_dec 110 1; np_dec 121 1];
     terminal_value := np_dec 4961 3;
     pv_terminal_value := np_dec 4100 3;
     enterprise_value := np_dec 4700 3;
     cash := np_dec 50 1;
     debt := np_dec 20 1;
     equity_value := np_dec 4790 3;
     shares_outstanding := py_dec 100 1;
     intrinsic_value_per_share := np_dec 479 30;
     current_price := py_dec 10 1;
     upside_downside_pct := np_dec 179 3;
     r_wacc := py_dec 10 100;
     r_terminal_growth_rate := py_dec 25 1000 |}.


(** What the run returns when wacc equals the terminal growth rate. *)
Definition equal_rates_result : DCFResult :=
  {| base_fcf := np_dec 100 1;
     fcf_growth_rate := np_dec 10 100;
     projected_fcf := [np_dec 110 1; np_dec 121 1];
     terminal_value := Np PInf;
     pv_terminal_value := Np PInf;
     enterprise_value := Np PInf;
     cash := zero;
     debt := zero;
     equity_value := Np PInf;
     shares_outstanding := zero;
     intrinsic_value_per_share := zero;
     current_price := zero;
     upside_downside_pct := zero;
     r_wacc := py_dec 25 1000;
     r_terminal_growth_rate := py_dec 25 1000 |}.

(** wacc = -1, so that every discount factor [(1 + wacc) ** t] is zero. *)
Definition model_wacc_minus_one : DCFModel :=
  {| forecast_years := 2;
     terminal_growth_rate := py_dec 25 1000;
     wacc := py_dec (-1) 1;
     stock := provider history_100 ∅ ∅ |}.

Definition num_val (a : Z) (b : positive) : pyval := VNum (py_dec a b).

(** Target with price 50 and P/E 20, one peer with P/E 25 and one without. *)
Definition analysis_pe : CompAnalysis :=
  fetch_data {[ "currentPrice" := num_val 50 1; "trailingPE" := num_val 20 1 ]}
             [Ok {[ "trailingPE" := num_val 25 1 ]}; Ok ∅].

(** The same target without a price. *)
Definition analysis_price_missing : CompAnalysis :=
  fetch_data {[ "trailingPE" := num_val 20 1 ]}
             [Ok {[ "trailingPE" := num_val 25 1 ]}; Ok ∅].

(** No comp could be fetched. *)
Definition analysis_no_peers : CompAnalysis :=
  fetch_data {[ "currentPrice" := num_val 50 1; "trailingPE" := num_val 20 1 ]} [].

(** Target with enterprise value 0 and EV/EBITDA 10, one peer with
    EV/EBITDA 12. *)
Definition analysis_ev_zero : CompAnalysis :=
  fetch_data {[ "enterpriseValue" := num_val 0 1; "enterpriseToEbitda" := num_val 10 1 ]}
             [Ok {[ "enterpriseToEbitda" := num_val 12 1 ]}].

(** Target with price 0 and P/E 20, one peer with P/E 25. *)
Definition analysis_price_zero : CompAnalysis :=
  fetch_data {[ "currentPrice" := num_val 0 1; "trailingPE" := num_val 20 1 ]}
             [Ok {[ "trailingPE" := num_val 25 1 ]}].

(** The scenario when the provider has a price but no share count. *)
Definition scenario_no_shares : DCFModel :=
  {| forecast_years := 2;
     terminal_growth_rate := py_dec 25 1000;
     wacc := py_dec 10 100;
     stock := provider history_100 ∅ {[ "currentPrice" := VNum (py_dec 10 1) ]} |}.

Definition scenario_no_shares_result : DCFResult :=
  {| base_fcf := np_dec 100 1;
     fcf_growth_rate := np_dec 10 100;
     projected_fcf := [np_dec 110 1; np_dec 121 1];
     terminal_value := np_dec 4961 3;
     pv_terminal_value := np_dec 4100 3;
     enterprise_value := np_dec 4700 3;
     cash := zero;
     debt := zero;
     equity_value := np_dec 4700 3;
     shares_outstanding := zero;
     intrinsic_value_per_share := zero;
     current_price := py_dec 10 1;
     upside_downside_pct := py_dec (-100) 1;
     r_wacc := py_dec 10 100;
     r_terminal_growth_rate := py_dec 25 1000 |}.

(** A statement whose columns run from the latest year back, without a
    'Free Cash Flow' line. *)
Definition statement_3y : Statement :=
  {| dates := [2023; 2022; 2021]%Z;
     lines := {[ "Operating Cash Flow" := [Fin (dec 120 1); Fin (dec 100 1); Fin (dec 90 1)];
                 "Capital Expenditure" := [Fin (dec (-20) 1); Fin (dec (-30) 1); Fin (dec (-10) 1)] ]} |}.

(** Target with a price, a P/E, an enterprise value and an EV/EBITDA; three
    peers, one of them without data. *)
Definition analysis_priced : CompAnalysis :=
  fetch_data {[ "currentPrice" := num_val 50 1; "trailingPE" := num_val 20 1;
                "enterpriseValue" := num_val 1000 1;
                "enterpriseToEbitda" := num_val 10 1 ]}
             [Ok {[ "trailingPE" := num_val 25 1; "enterpriseToEbitda" := num_val 12 1 ]};
              Raise ValueError;
              Ok {[ "trailingPE" := num_val 15 1; "enterpriseToEbitda" := num_val 8 1 ]};
              Ok ∅].

(** * Properties *)

(** Closed goals on rationals are settled by evaluation. *)
Ltac by_eval :=
  match goal with
  | |- ?G => apply (bool_decide_unpack G); vm_compute; exact I
  end.

(** Order facts on rationals go through linear arithmetic on [Q]. *)
Ltac qc_order := unfold Qclt, Qcle in *; lra.

(** ** Arithmetic of doubles *)

Lemma qc_two_nonzero (a : Qc) : a <> 0 -> 2 * a <> 0.
Proof.
  intros Ha H. apply Qcmult_integral in H. destruct H as [H | H]; [ | done].
  assert (Hn : (2 : Qc) <> 0) by by_eval. done.
Qed.

Lemma pct_double (a : Qc) :
  a <> 0 -> xsub (xdiv (Fin (2 * a)) (Fin a)) (Fin 1) = Fin 1.
Proof.
  intros Ha. unfold xsub, xdiv, xopp, xadd.
  rewrite bool_decide_eq_false_2 by exact Ha.
  f_equal. field. exact Ha.
Qed.




(** ** Growth rate *)

Lemma growth_rate_short (h : list Qc) :
  (length h < 2)%nat -> calculate_fcf_growth_rate h = Py (Fin (dec 5 100)).
Proof.
  intros Hlen. unfold calculate_fcf_growth_rate.
  apply Nat.ltb_lt in Hlen. rewrite Hlen. reflexivity.
Qed.

Lemma growth_rate_doubling (x : Qc) :
  x <> 0 -> calculate_fcf_growth_rate (doubling5 x) = Py growth_cap.
Proof.
  intros Hx. unfold calculate_fcf_growth_rate, doubling5.
  cbv beta iota zeta delta [length Nat.ltb Nat.leb map pct_change pct_change_from].
  rewrite !pct_double by auto using qc_two_nonzero.
  by_eval.
Qed.



Lemma pct_change_from_zeros (n : nat) :
  pct_change_from (Fin 0) (map Fin (replicate n 0)) = replicate n NaN.
Proof. induction n as [ | n IH]; simpl; [ reflexivity | rewrite IH; reflexivity ]. Qed.

Lemma dropna_all_nan (n : nat) : dropna (replicate n NaN) = [].
Proof.
  induction n as [ | n IH]; [ reflexivity | ].
  simpl. unfold dropna in *. rewrite filter_cons_False by (simpl; discriminate).
  exact IH.
Qed.

(** C6 (failing inputs).  A history of two or more zeros takes the branch
    of the median: every percentage change is undefined (0/0), nothing is
    left after [dropna], the median is NaN and so is the returned growth
    rate, which is therefore no value of [-0.10, 0.25]: the bounds of
    [max(min(., 0.25), -0.10)] do not hold it. *)
Theorem growth_rate_all_zero_history (n : nat) :
  (length (replicate (S (S n)) (0 : Qc)) <? 2)%nat = false
  /\ dropna (pct_change (map Fin (replicate (S (S n)) 0))) = []
  /\ calculate_fcf_growth_rate (replicate (S (S n)) 0) = Np NaN
  /\ (forall x, in_range growth_floor growth_cap x = true ->
        val (calculate_fcf_growth_rate (replicate (S (S n)) 0)) <> x).
Proof.
  assert (Hdrop : dropna (pct_change (map Fin (replicate (S (S n)) 0))) = []).
  { change (pct_change (map Fin (replicate (S (S n)) 0)))
      with (NaN :: pct_change_from (Fin 0) (map Fin (replicate (S n) 0))).
    rewrite pct_change_from_zeros. apply (dropna_all_nan (S (S n))). }
  assert (Hrun : calculate_fcf_growth_rate (replicate (S (S n)) 0) = Np NaN).
  { unfold calculate_fcf_growth_rate. rewrite Hdrop. reflexivity. }
  split; [ reflexivity | ]. split; [ exact Hdrop | ]. split; [ exact Hrun | ].
  intros x Hx. rewrite Hrun. simpl. intros <-. discriminate.
Qed.

(** C9 (failing input).  On the series [0, 0] both percentage changes are
    undefined, the median of the empty remainder is NaN, and
    [max(min(NaN, 0.25), -0.10)] is NaN: the returned growth rate is not in
    [-0.10, 0.25]. *)
Theorem growth_rate_zero_series :
  calculate_fcf_growth_rate [0; 0] = Np NaN
  /\ in_range growth_floor growth_cap (val (calculate_fcf_growth_rate [0; 0])) = false.
Proof. split; reflexivity. Qed.

(** ** Projection *)

Lemma project_loop_length (n : nat) (b g : num) :
  length (project_loop n b g) = n.
Proof. revert b. induction n as [ | n IH]; intros b; simpl; [ | rewrite IH ]; reflexivity. Qed.

Lemma project_loop_step (n : nat) (b g : num) (i : nat) (x : num) :
  project_loop n b g !! i = Some x ->
  (S i < n)%nat ->
  project_loop n b g !! S i = Some (nmul x (nadd one g)).
Proof.
  revert b i. induction n as [ | n IH]; intros b i Hi Hlt; [ lia | ].
  destruct i as [ | i].
  - simpl in Hi. injection Hi as <-.
    destruct n as [ | n]; [ lia | reflexivity ].
  - simpl in Hi |- *. apply IH; [ exact Hi | lia ].
Qed.

(** C7. For a horizon of at least one period, [project_fcf] returns exactly
    [horizon] values, the first is [base * (1 + g)], every later one is its
    predecessor times [(1 + g)]; and project(100, 0.10, 3) is
    [110, 121, 133.1]. *)
Theorem project_fcf_spec (self : DCFModel) (base g : num) :
  (1 <= forecast_years self)%Z ->
  length (project_fcf self base g) = Z.to_nat (forecast_years self)
  /\ project_fcf self base g !! 0%nat = Some (nmul base (nadd one g))
  /\ (forall i x,
        project_fcf self base g !! i = Some x ->
        (S i < Z.to_nat (forecast_years self))%nat ->
        project_fcf self base g !! S i = Some (nmul x (nadd one g)))
  /\ (forecast_years self = 3%Z ->
      project_fcf self (Py (Fin (dec 100 1))) (Py (Fin (dec 10 100)))
      = [Py (Fin (dec 110 1)); Py (Fin (dec 121 1)); Py (Fin (dec 1331 10))]).
Proof.
  intros Hh. unfold project_fcf. repeat split.
  - apply project_loop_length.
  - destruct (Z.to_nat (forecast_years self)) eqn:E; [ lia | reflexivity ].
  - intros i x. apply project_loop_step.
  - intros ->. by_eval.
Qed.

Lemma project_fcf_spec_witness :
  project_fcf model_3y (Py (Fin (dec 100 1))) (Py (Fin (dec 10 100)))
  = [Py (Fin (dec 110 1)); Py (Fin (dec 121 1)); Py (Fin (dec 1331 10))].
Proof.
  apply (project_fcf_spec model_3y (Py (Fin (dec 100 1))) (Py (Fin (dec 10 100)))).
  - simpl. lia.
  - reflexivity.
Defined.

(** ** Division and the monad *)

Lemma bind_ok {A B} (a : A) (k : A -> result B) : (Ok a ≫= k) = k a.
Proof. reflexivity. Qed.

Lemma ndiv_np (a b : num) :
  is_np a = true -> ndiv a b = Ok (Np (xdiv (val a) (val b))).
Proof. intros Ha. unfold ndiv. rewrite Ha. reflexivity. Qed.

Lemma ndiv_nonzero (a b : num) :
  is_zero (val b) = false -> exists q, ndiv a b = Ok q /\ val q = xdiv (val a) (val b).
Proof.
  intros Hb. unfold ndiv. rewrite Hb.
  destruct (is_np a || is_np b); eexists; (split; [ reflexivity | reflexivity ]).
Qed.

Lemma nlt_zero_nonzero (p : num) : nlt zero p = true -> is_zero (val p) = false.
Proof.
  unfold nlt, zero. simpl. destruct (val p) as [q | | | ]; simpl; try done.
  intros H. apply bool_decide_eq_true_1 in H. apply bool_decide_eq_false_2.
  intros ->. exact (Qclt_not_eq _ _ H eq_refl).
Qed.

Lemma lift2_np_l (op : xfloat -> xfloat -> xfloat) (a b : num) :
  is_np a = true -> lift2 op a b = Np (op (val a) (val b)).
Proof. intros Ha. unfold lift2. rewrite Ha. reflexivity. Qed.

Lemma lift2_np_r (op : xfloat -> xfloat -> xfloat) (a b : num) :
  is_np b = true -> lift2 op a b = Np (op (val a) (val b)).
Proof. intros Hb. unfold lift2. rewrite Hb, orb_true_r. reflexivity. Qed.

Lemma qc_div_pos_neg (a b : Qc) : 0 < a -> b < 0 -> a / b < 0.
Proof.
  intros Ha Hb.
  assert (Hnb : 0 < - b).
  { apply (Qcplus_lt_mono_r _ _ b). ring_simplify. exact Hb. }
  assert (Hb0 : b <> 0) by (intros ->; exact (Qclt_not_eq _ _ Hb eq_refl)).
  pose proof (Qcmult_pos_pos _ _ Ha (Qcinv_pos _ Hnb)) as Hpos.
  apply (Qcplus_lt_mono_r _ _ (a * / - b)). ring_simplify.
  replace (a / b + a * / - b) with 0; [ exact Hpos | ].
  field. split; [ | exact Hb0 ].
  intros H. rewrite H in Hnb. exact (Qclt_not_eq _ _ Hnb eq_refl).
Qed.

(** ** Terminal value *)

Lemma terminal_value_finite (self : DCFModel) (final_fcf : num) (f r g : Qc) :
  val final_fcf = Fin f ->
  wacc self = Py (Fin r) ->
  terminal_growth_rate self = Py (Fin g) ->
  r <> g ->
  exists tv, calculate_terminal_value self final_fcf = Ok tv
             /\ val tv = Fin (f * (1 + g) / (r - g)).
Proof.
  intros Hf Hr Hg Hne. unfold calculate_terminal_value. rewrite Hr, Hg.
  assert (Hd : r - g <> 0).
  { intros H. apply Hne. rewrite <- (Qcplus_0_l g), <- H. ring. }
  destruct (ndiv_nonzero (nmul final_fcf (nadd one (Py (Fin g))))
                         (nsub (Py (Fin r)) (Py (Fin g)))) as (q & Hq & Hv).
  { simpl. apply bool_decide_eq_false_2. exact Hd. }
  exists q. split; [ exact Hq | ]. rewrite Hv.
  destruct final_fcf as [x | x]; simpl in Hf; subst x; simpl;
    rewrite bool_decide_eq_false_2 by exact Hd; reflexivity.
Qed.

(** C1 (as amended).  [calculate_terminal_value] applies the perpetuity
    formula without looking at the rates: for finite inputs with r < g it
    raises nothing and returns finalYearFCF * (1 + g) / (r - g), a negative
    number whenever finalYearFCF * (1 + g) is positive. *)
Theorem terminal_value_unguarded (self : DCFModel) (final_fcf : num) (f r g : Qc) :
  val final_fcf = Fin f ->
  wacc self = Py (Fin r) ->
  terminal_growth_rate self = Py (Fin g) ->
  r < g ->
  exists tv, calculate_terminal_value self final_fcf = Ok tv
             /\ val tv = Fin (f * (1 + g) / (r - g))
             /\ (0 < f * (1 + g) -> xlt (val tv) (Fin 0) = true).
Proof.
  intros Hf Hr Hg Hlt.
  destruct (terminal_value_finite self final_fcf f r g Hf Hr Hg) as (tv & Htv & Hv).
  { intros ->. exact (Qclt_not_eq _ _ Hlt eq_refl). }
  exists tv. repeat split; [ exact Htv | exact Hv | ].
  intros Hpos. rewrite Hv. simpl. apply bool_decide_eq_true_2.
  apply qc_div_pos_neg; [ exact Hpos | ].
  apply (Qcplus_lt_mono_r _ _ g). ring_simplify. exact Hlt.
Qed.

Lemma terminal_value_unguarded_witness :
  exists tv, calculate_terminal_value model_low_wacc (py_dec 1331 10) = Ok tv
             /\ val tv = Fin (dec 1331 10 * (1 + dec 25 1000) / (dec 2 100 - dec 25 1000))
             /\ (0 < dec 1331 10 * (1 + dec 25 1000) -> xlt (val tv) (Fin 0) = true).
Proof.
  apply (terminal_value_unguarded model_low_wacc (py_dec 1331 10)
           (dec 1331 10) (dec 2 100) (dec 25 1000)).
  - reflexivity.
  - reflexivity.
  - reflexivity.
  - vm_compute. reflexivity.
Defined.

(** C1 (counterexample).  With wacc = 0.02 and terminal growth 0.025 the
    call on 133.1 does not fail: it returns -27285.5, a negative terminal
    value. *)
Lemma terminal_value_low_wacc_returns :
  calculate_terminal_value model_low_wacc (py_dec 1331 10) = Ok (py_dec (-272855) 10)
  /\ xlt (val (py_dec (-272855) 10)) (Fin 0) = true
  /\ nlt (wacc model_low_wacc) (terminal_growth_rate model_low_wacc) = true.
Proof. split; [ by_eval | split; reflexivity ]. Qed.

(** ** The DCF pipeline *)

Lemma last_map_nonempty {A B} (f : A -> B) (l : list A) :
  l <> [] -> exists a, last l = Some a /\ last (map f l) = Some (f a).
Proof.
  intros Hl. destruct (last l) as [a | ] eqn:E.
  - exists a. split; [ reflexivity | ]. change (map f l) with (f <$> l).
    rewrite fmap_last, E. reflexivity.
  - apply last_None in E. contradiction.
Qed.

Lemma project_loop_np (n : nat) (b g : num) :
  is_np b = true -> Forall (fun x => is_np x = true) (project_loop n b g).
Proof.
  revert b. induction n as [ | n IH]; intros b Hb; simpl; constructor.
  - unfold nmul. rewrite lift2_np_l by exact Hb. reflexivity.
  - apply IH. unfold nmul. rewrite lift2_np_l by exact Hb. reflexivity.
Qed.

Lemma discount_loop_np (self : DCFModel) (cfs : list num) (t : nat) :
  Forall (fun x => is_np x = true) cfs ->
  exists pvs,
    discount_loop self t cfs = Ok pvs
    /\ length pvs = length cfs
    /\ (forall i cf, cfs !! i = Some cf ->
          exists pv, pvs !! i = Some pv
                     /\ ndiv cf (npow (nadd one (wacc self)) (t + i)) = Ok pv).
Proof.
  intros Hnp. revert t. induction Hnp as [ | cf cfs Hcf _ IH]; intros t.
  - exists []. repeat split. intros i cf Hi. rewrite lookup_nil in Hi. discriminate.
  - destruct (IH (S t)) as (pvs & Hpvs & Hlen & Hel).
    exists (Np (xdiv (val cf) (val (npow (nadd one (wacc self)) t))) :: pvs).
    split; [ | split ].
    + simpl. rewrite (ndiv_np cf _ Hcf), bind_ok, Hpvs, bind_ok. reflexivity.
    + simpl. rewrite Hlen. reflexivity.
    + intros [ | i] c Hi; simpl in Hi.
      * injection Hi as <-. eexists. split; [ reflexivity | ].
        rewrite Nat.add_0_r. apply ndiv_np, Hcf.
      * destruct (Hel i c Hi) as (pv & Hpv & Hdiv).
        exists pv. split; [ exact Hpv | ].
        replace (t + S i)%nat with (S t + i)%nat by lia. exact Hdiv.
Qed.

Lemma as_num_info (i : gmap string pyval) (k : string) :
  i !! k <> Some VNone ->
  exists n, as_num (dict_get_or i k (VNum zero)) = Ok n
            /\ (i !! k = None -> n = zero)
            /\ (forall m, i !! k = Some (VNum m) -> n = m).
Proof.
  intros Hk. unfold dict_get_or. destruct (i !! k) as [ [ | n] | ]; simpl.
  - contradiction.
  - exists n. repeat split; [ discriminate | intros m [= <-]; reflexivity ].
  - exists zero. repeat split. discriminate.
Qed.

Section Run.

(** A model on a non-empty history, with a horizon of at least one period
    and no [None] for the share count or the price. *)
Variable self : DCFModel.
Hypothesis Hh : historical_fcf (stock self) <> [].
Hypothesis Hy : (1 <= forecast_years self)%Z.
Hypothesis Hs : info (stock self) !! "sharesOutstanding" <> Some VNone.
Hypothesis Hp : info (stock self) !! "currentPrice" <> Some VNone.

(** The run returns a result, and each field of the result is the value
    the pipeline computes for it. *)
Lemma dcf_run :
  exists r pv_fcf,
    calculate_enterprise_value self = Ok r
    /\ (exists q, last (historical_fcf (stock self)) = Some q /\ base_fcf r = Np (Fin q))
    /\ fcf_growth_rate r = calculate_fcf_growth_rate (historical_fcf (stock self))
    /\ projected_fcf r = project_fcf self (base_fcf r) (fcf_growth_rate r)
    /\ (exists final_fcf, last (projected_fcf r) = Some final_fcf
          /\ calculate_terminal_value self final_fcf = Ok (terminal_value r))
    /\ discount_cash_flows self (projected_fcf r) = Ok pv_fcf
    /\ length pv_fcf = length (projected_fcf r)
    /\ (forall i cf, projected_fcf r !! i = Some cf ->
          exists pv, pv_fcf !! i = Some pv
                     /\ ndiv cf (npow (nadd one (wacc self)) (S i)) = Ok pv)
    /\ ndiv (terminal_value r)
            (npow (nadd one (wacc self)) (length (projected_fcf r)))
       = Ok (pv_terminal_value r)
    /\ enterprise_value r = nadd (py_sum pv_fcf) (pv_terminal_value r)
    /\ cash r = try_except
                  (loc_iloc0 (balance_sheet (stock self)) "Cash And Cash Equivalents") zero
    /\ debt r = try_except (loc_iloc0 (balance_sheet (stock self)) "Total Debt") zero
    /\ equity_value r = nsub (nadd (enterprise_value r) (cash r)) (debt r)
    /\ VNum (shares_outstanding r)
       = dict_get_or (info (stock self)) "sharesOutstanding" (VNum zero)
    /\ (if nlt zero (shares_outstanding r)
        then ndiv (equity_value r) (shares_outstanding r) = Ok (intrinsic_value_per_share r)
        else intrinsic_value_per_share r = zero)
    /\ VNum (current_price r)
       = dict_get_or (info (stock self)) "currentPrice" (VNum zero)
    /\ (if nlt zero (current_price r)
        then exists q,
               ndiv (nsub (intrinsic_value_per_share r) (current_price r)) (current_price r)
               = Ok q
               /\ upside_downside_pct r = nmul q (Py (Fin (dec 100 1)))
        else upside_downside_pct r = zero).
Proof.
  destruct (last_map_nonempty (fun q => Np (Fin q)) _ Hh) as (q & Hq & Hlast).
  pose (g := calculate_fcf_growth_rate (historical_fcf (stock self))).
  pose (proj := project_fcf self (Np (Fin q)) g).
  assert (Hnp : Forall (fun x => is_np x = true) proj) by (apply project_loop_np; reflexivity).
  assert (Hlen : length proj = Z.to_nat (forecast_years self)) by apply project_loop_length.
  destruct (last proj) as [fin | ] eqn:Hfin;
    [ | apply last_None in Hfin; rewrite Hfin in Hlen; simpl in Hlen; lia ].
  assert (Hfin_np : is_np fin = true).
  { rewrite Forall_forall in Hnp. apply Hnp. rewrite last_lookup in Hfin.
    eapply list_elem_of_lookup_2. exact Hfin. }
  pose (tv := Np (xdiv (val (nmul fin (nadd one (terminal_growth_rate self))))
                       (val (nsub (wacc self) (terminal_growth_rate self))))).
  assert (Htv : calculate_terminal_value self fin = Ok tv).
  { unfold calculate_terminal_value. apply ndiv_np.
    unfold nmul. rewrite lift2_np_l by exact Hfin_np. reflexivity. }
  destruct (discount_loop_np self proj 1 Hnp) as (pvs & Hpvs & Hplen & Hpel).
  pose (pvt := Np (xdiv (val tv)
                        (val (npow (nadd one (wacc self)) (Z.to_nat (forecast_years self)))))).
  assert (Hpvt : ndiv tv (npow (nadd one (wacc self)) (Z.to_nat (forecast_years self)))
                 = Ok pvt) by (apply ndiv_np; reflexivity).
  pose (ev := nadd (py_sum pvs) pvt).
  pose (ca := try_except
                (loc_iloc0 (balance_sheet (stock self)) "Cash And Cash Equivalents") zero).
  pose (de := try_except (loc_iloc0 (balance_sheet (stock self)) "Total Debt") zero).
  pose (eq := nsub (nadd ev ca) de).
  assert (Heq_np : is_np eq = true).
  { unfold eq, nsub. rewrite lift2_np_l; [ reflexivity | ].
    unfold nadd at 1. rewrite lift2_np_l; [ reflexivity | ].
    unfold ev, nadd. rewrite lift2_np_r; reflexivity. }
  destruct (as_num_info _ _ Hs) as (sh & Hsh & _).
  destruct (as_num_info _ _ Hp) as (pr & Hpr & _).
  assert (Hintr : exists intr,
            (if nlt zero sh then ndiv eq sh else Ok zero) = Ok intr
            /\ (if nlt zero sh then ndiv eq sh = Ok intr else intr = zero)).
  { destruct (nlt zero sh).
    - eexists. split; apply ndiv_np, Heq_np.
    - exists zero. split; reflexivity. }
  destruct Hintr as (intr & Hintr & Hintr').
  assert (Hup : exists up,
            (if nlt zero pr
             then q ← ndiv (nsub intr pr) pr; Ok (nmul q (Py (Fin (dec 100 1))))
             else Ok zero) = Ok up
            /\ (if nlt zero pr
                then exists q, ndiv (nsub intr pr) pr = Ok q /\ up = nmul q (Py (Fin (dec 100 1)))
                else up = zero)).
  { destruct (nlt zero pr) eqn:Hpos.
    - destruct (ndiv_nonzero (nsub intr pr) pr (nlt_zero_nonzero _ Hpos)) as (q' & Hq' & _).
      exists (nmul q' (Py (Fin (dec 100 1)))). rewrite Hq'. split; [ reflexivity | ].
      exists q'. split; reflexivity.
    - exists zero. split; reflexivity. }
  destruct Hup as (up & Hup & Hup').
  eexists. exists pvs.
  split.
  { unfold calculate_enterprise_value, last_item.
    rewrite Hlast, bind_ok. fold g. fold proj. rewrite Hfin, bind_ok.
    rewrite Htv, bind_ok. unfold discount_cash_flows. rewrite Hpvs, bind_ok.
    rewrite Hpvt, bind_ok. rewrite Hsh, bind_ok.
    fold ev. fold ca. fold de. fold eq. rewrite Hintr, bind_ok.
    rewrite Hpr, bind_ok. rewrite Hup, bind_ok. reflexivity. }
  simpl. repeat split.
  - exists q. split; [ exact Hq | reflexivity ].
  - exists fin. split; [ exact Hfin | exact Htv ].
  - exact Hpvs.
  - exact Hplen.
  - intros i cf Hi. apply (Hpel i cf Hi).
  - fold proj. rewrite Hlen. exact Hpvt.
  - unfold dict_get_or in Hsh |- *.
    destruct (info (stock self) !! "sharesOutstanding") as [ [ | n] | ];
      simpl in *; congruence.
  - exact Hintr'.
  - unfold dict_get_or in Hpr |- *.
    destruct (info (stock self) !! "currentPrice") as [ [ | n] | ];
      simpl in *; congruence.
  - exact Hup'.
Qed.

End Run.

(** The next stage of a run that is known to return: its result is named
    and the raising branch is discarded. *)
Ltac run_stage H :=
  match type of H with
  | (?x ≫= _) = Ok _ =>
      let E := fresh "Hstage" in
      destruct x eqn:E; [ rewrite bind_ok in H | discriminate H ]
  end.

(** A run returns only on a non-empty history, with a horizon of at least
    one period and no [None] for the share count or the price. *)
Lemma dcf_returns_inv (self : DCFModel) (r : DCFResult) :
  calculate_enterprise_value self = Ok r ->
  historical_fcf (stock self) <> []
  /\ (1 <= forecast_years self)%Z
  /\ info (stock self) !! "sharesOutstanding" <> Some VNone
  /\ info (stock self) !! "currentPrice" <> Some VNone.
Proof.
  intros H. unfold calculate_enterprise_value in H.
  run_stage H. run_stage H. run_stage H. run_stage H. run_stage H.
  run_stage H. run_stage H. run_stage H.
  repeat split.
  - intros He. rewrite He in Hstage. discriminate.
  - destruct (Z_lt_le_dec (forecast_years self) 1) as [Hlt | Hle]; [ | exact Hle ].
    unfold project_fcf in Hstage0.
    replace (Z.to_nat (forecast_years self)) with 0%nat in Hstage0 by lia.
    discriminate.
  - intros Hn. unfold dict_get_or in Hstage4. rewrite Hn in Hstage4. discriminate.
  - intros Hn. unfold dict_get_or in Hstage6. rewrite Hn in Hstage6. discriminate.
Qed.





(** C2 (failing inputs).  No guard precedes the division by [wacc - g] or by
    [(1 + wacc) ** t]: with wacc equal to the terminal growth rate
    [calculate_terminal_value] raises [ZeroDivisionError] on a built-in
    float, with wacc = -1 so does [discount_cash_flows], and the pipeline,
    whose cash flows are numpy scalars, returns an infinite terminal value
    and enterprise value. *)
Theorem division_unguarded :
  calculate_terminal_value model_equal_rates (py_dec 1331 10) = Raise ZeroDivisionError
  /\ discount_cash_flows model_wacc_minus_one [py_dec 110 1] = Raise ZeroDivisionError
  /\ calculate_enterprise_value model_equal_rates = Ok equal_rates_result
  /\ terminal_value equal_rates_result = Np PInf
  /\ enterprise_value equal_rates_result = Np PInf.
Proof. repeat split; by_eval. Qed.





(** ** Order, sorting and the median *)

Ltac xfloat_order :=
  simpl in *; try done;
  repeat (case_bool_decide; simpl in * ); try done; exfalso; qc_order.

Lemma xle_refl (x : xfloat) : is_nan x = false -> xle x x = true.
Proof. destruct x; intros H; xfloat_order. Qed.

Lemma xle_trans (x y z : xfloat) : xle x y = true -> xle y z = true -> xle x z = true.
Proof. destruct x, y, z; intros H1 H2; xfloat_order. Qed.

Lemma xle_total (x y : xfloat) :
  is_nan x = false -> is_nan y = false -> xle x y = false -> xle y x = true.
Proof. destruct x, y; intros H1 H2 H3; xfloat_order. Qed.

Lemma xlt_xle (x y : xfloat) : xlt x y = true -> xle x y = true.
Proof. destruct x, y; intros H; xfloat_order. Qed.

Lemma not_xlt_xle (x y : xfloat) :
  is_nan x = false -> is_nan y = false -> xlt x y = false -> xle y x = true.
Proof. destruct x, y; intros H1 H2 H3; xfloat_order. Qed.

Lemma insert_sorted_perm (x : xfloat) (s : list xfloat) : insert_sorted x s ≡ₚ x :: s.
Proof.
  induction s as [ | y s IH]; simpl; [ reflexivity | ].
  destruct (xle x y); [ reflexivity | ].
  rewrite IH. apply Permutation_swap.
Qed.

Lemma sort_values_perm (s : list xfloat) : sort_values s ≡ₚ s.
Proof.
  induction s as [ | x s IH]; simpl; [ reflexivity | ].
  rewrite insert_sorted_perm, IH. reflexivity.
Qed.

Lemma insert_sorted_ascending (x : xfloat) (s : list xfloat) :
  is_nan x = false ->
  Forall (fun y => is_nan y = false) s ->
  ascending s -> ascending (insert_sorted x s).
Proof.
  intros Hx Hs Hasc. induction Hasc as [ | y | y z l Hyz Hasc IH]; simpl.
  - constructor.
  - destruct (xle x y) eqn:E.
    + constructor; [ exact E | constructor ].
    + constructor; [ | constructor ].
      apply xle_total; [ exact Hx | | exact E ]. by inversion Hs.
  - inversion Hs as [ | ? ? Hy Hs' ]; subst.
    destruct (xle x y) eqn:E.
    + constructor; [ exact E | constructor; assumption ].
    + specialize (IH Hs'). simpl in IH.
      destruct (xle x z) eqn:E'.
      * constructor; [ | exact IH ]. apply xle_total; assumption.
      * constructor; [ exact Hyz | exact IH ].
Qed.

Lemma sort_values_ascending (s : list xfloat) :
  Forall (fun y => is_nan y = false) s -> ascending (sort_values s).
Proof.
  induction 1 as [ | x s Hx Hs IH]; simpl; [ constructor | ].
  apply insert_sorted_ascending; [ exact Hx | | exact IH ].
  rewrite sort_values_perm. exact Hs.
Qed.

Lemma dropna_id (s : list xfloat) :
  Forall (fun y => is_nan y = false) s -> dropna s = s.
Proof.
  induction 1 as [ | x s Hx Hs IH]; [ reflexivity | ].
  unfold dropna in *. rewrite filter_cons_True by exact Hx. rewrite IH. reflexivity.
Qed.

Lemma dropna_values_present (s : list pyval) :
  Forall (fun y => is_nan y = false) (dropna_values s).
Proof.
  induction s as [ | v s IH]; simpl; [ constructor | ].
  unfold dropna_values in *. simpl.
  destruct (present v) as [x | ] eqn:E; simpl; [ | exact IH ].
  constructor; [ | exact IH ].
  destruct v as [ | n]; simpl in E; [ discriminate | ].
  destruct (is_nan (val n)) eqn:En; [ discriminate | ]. injection E as <-. exact En.
Qed.

(** The median is the standard middle value of the values put in
    ascending order: the middle one for an odd count, the mean of the two
    middle ones for an even count. *)
Lemma median_middle (v : list xfloat) :
  Forall (fun y => is_nan y = false) v ->
  v <> [] ->
  exists s, s ≡ₚ v /\ ascending s
    /\ median v =
       if Nat.odd (length v) then nth (Nat.div (length v) 2) s NaN
       else xdiv (xadd (nth (Nat.div (length v) 2 - 1) s NaN)
                       (nth (Nat.div (length v) 2) s NaN)) (Fin 2).
Proof.
  intros Hv Hne. exists (sort_values v).
  split; [ apply sort_values_perm | ]. split; [ apply sort_values_ascending, Hv | ].
  unfold median. rewrite (dropna_id v Hv).
  assert (Hlen : length (sort_values v) = length v)
    by (apply Permutation_length, sort_values_perm).
  rewrite Hlen. destruct v as [ | x v]; [ contradiction | ]. reflexivity.
Qed.

Lemma fold_min_spec (r : list xfloat) (m : xfloat) :
  is_nan m = false ->
  Forall (fun y => is_nan y = false) r ->
  let res := fold_left (fun m y => if xlt y m then y else m) r m in
  res ∈ m :: r /\ Forall (fun y => xle res y = true) (m :: r).
Proof.
  revert m. induction r as [ | y r IH]; intros m Hm Hr; simpl.
  - split; [ apply list_elem_of_here | ]. constructor; [ apply xle_refl, Hm | constructor ].
  - inversion Hr as [ | ? ? Hy Hr' ]; subst.
    destruct (xlt y m) eqn:E.
    + destruct (IH y Hy Hr') as (Hin & Hall). simpl in Hin, Hall.
      split; [ apply list_elem_of_further, Hin | ].
      inversion Hall as [ | ? ? Hres Hall' ]; subst.
      constructor; [ | constructor; assumption ].
      eapply xle_trans; [ exact Hres | apply xlt_xle, E ].
    + destruct (IH m Hm Hr') as (Hin & Hall). simpl in Hin, Hall.
      split.
      * apply elem_of_cons in Hin. destruct Hin as [ -> | Hin ];
          [ apply list_elem_of_here | do 2 apply list_elem_of_further; exact Hin ].
      * inversion Hall as [ | ? ? Hres Hall' ]; subst.
        constructor; [ exact Hres | constructor; [ | exact Hall' ] ].
        eapply xle_trans; [ exact Hres | apply not_xlt_xle; assumption ].
Qed.

Lemma fold_max_spec (r : list xfloat) (m : xfloat) :
  is_nan m = false ->
  Forall (fun y => is_nan y = false) r ->
  let res := fold_left (fun m y => if xlt m y then y else m) r m in
  res ∈ m :: r /\ Forall (fun y => xle y res = true) (m :: r).
Proof.
  revert m. induction r as [ | y r IH]; intros m Hm Hr; simpl.
  - split; [ apply list_elem_of_here | ]. constructor; [ apply xle_refl, Hm | constructor ].
  - inversion Hr as [ | ? ? Hy Hr' ]; subst.
    destruct (xlt m y) eqn:E.
    + destruct (IH y Hy Hr') as (Hin & Hall). simpl in Hin, Hall.
      split; [ apply list_elem_of_further, Hin | ].
      inversion Hall as [ | ? ? Hres Hall' ]; subst.
      constructor; [ | constructor; assumption ].
      eapply xle_trans; [ apply xlt_xle, E | exact Hres ].
    + destruct (IH m Hm Hr') as (Hin & Hall). simpl in Hin, Hall.
      split.
      * apply elem_of_cons in Hin. destruct Hin as [ -> | Hin ];
          [ apply list_elem_of_here | do 2 apply list_elem_of_further; exact Hin ].
      * inversion Hall as [ | ? ? Hres Hall' ]; subst.
        constructor; [ exact Hres | constructor; [ | exact Hall' ] ].
        apply (xle_trans _ m); [ apply not_xlt_xle; assumption | exact Hres ].
Qed.

(** ** Peer statistics *)

Lemma metrics_has_column (i : gmap string pyval) (c : string) :
  c ∈ multiple_cols -> is_Some (_extract_metrics i !! c).
Proof.
  unfold multiple_cols, _extract_metrics. intros Hc.
  repeat (apply elem_of_cons in Hc as [ -> | Hc ]; [ by simplify_map_eq | ]).
  by apply elem_of_nil in Hc.
Qed.

Lemma has_column_metrics (df : list (gmap string pyval)) (c : string) :
  df <> [] -> Forall is_metrics df -> c ∈ multiple_cols -> has_column df c = true.
Proof.
  intros Hne Hall Hc. destruct df as [ | row df]; [ contradiction | ].
  inversion Hall as [ | ? ? (i & ->) _ ]; subst.
  unfold has_column. simpl.
  rewrite bool_decide_eq_true_2 by (apply metrics_has_column, Hc). reflexivity.
Qed.

Lemma stats_loop_ok (df : list (gmap string pyval)) (cols : list string) :
  Forall (fun c => has_column df c = true) cols ->
  stats_loop df cols
  = Ok (map (fun c => column_stat c (dropna_values (map (fun row => dict_get row c) df)))
            cols).
Proof.
  induction 1 as [ | c cols Hc _ IH]; simpl; [ reflexivity | ].
  unfold column. rewrite Hc, bind_ok, IH, bind_ok. reflexivity.
Qed.

(** On a frame with at least one row, [calculate_multiples] returns one row
    of statistics per multiple, computed from the non-missing values of
    the column. *)
Lemma calculate_multiples_ok (self : CompAnalysis) (df : list (gmap string pyval)) :
  comp_data self = Some df ->
  df <> [] ->
  Forall is_metrics df ->
  calculate_multiples self
  = Ok (map (fun c => column_stat c (dropna_values (map (fun row => dict_get row c) df)))
            multiple_cols).
Proof.
  intros Hdf Hne Hall. unfold calculate_multiples. rewrite Hdf.
  apply stats_loop_ok. rewrite Forall_forall. intros c Hc.
  apply has_column_metrics; assumption.
Qed.

(** On a frame without rows the first column lookup fails. *)
Lemma calculate_multiples_no_rows (self : CompAnalysis) :
  comp_data self = Some [] -> calculate_multiples self = Raise KeyError.
Proof. intros Hdf. unfold calculate_multiples. rewrite Hdf. reflexivity. Qed.

(** The statistics of one column: count 0 and every aggregate [None] when
    no value is present; otherwise the count of the present values, their
    mean (sum over count), the median as the middle of the ascending
    order, the least and the greatest value, and the standard deviation
    with [ddof = 1]. *)
Lemma column_stat_spec (col : string) (s : list pyval) :
  let values := dropna_values s in
  let row := column_stat col values in
  multiple row = col
  /\ stat_count row = length values
  /\ (values = [] ->
      stat_mean row = VNone /\ stat_median row = VNone /\ stat_min row = VNone
      /\ stat_max row = VNone /\ stat_std row = None)
  /\ (values <> [] ->
      stat_mean row = VNum (Np (xdiv (series_sum values) (of_nat (length values))))
      /\ (exists sorted, sorted ≡ₚ values /\ ascending sorted
            /\ stat_median row = VNum (Np
                 (if Nat.odd (length values)
                  then nth (Nat.div (length values) 2) sorted NaN
                  else xdiv (xadd (nth (Nat.div (length values) 2 - 1) sorted NaN)
                                  (nth (Nat.div (length values) 2) sorted NaN))
                            (Fin 2))))
      /\ (exists lo, stat_min row = VNum (Np lo) /\ lo ∈ values
            /\ Forall (fun y => xle lo y = true) values)
      /\ (exists hi, stat_max row = VNum (Np hi) /\ hi ∈ values
            /\ Forall (fun y => xle y hi = true) values)
      /\ stat_std row = Some (Sqrt (series_var values))).
Proof.
  intros values row. pose proof (dropna_values_present s) as Hpres.
  fold values in Hpres. unfold row, column_stat.
  destruct values as [ | x r] eqn:E; simpl.
  - repeat split; try reflexivity; done.
  - repeat split; try discriminate.
    + destruct (median_middle (x :: r) Hpres) as (sorted & Hperm & Hasc & Hmed);
        [ discriminate | ].
      exists sorted. repeat split; [ exact Hperm | exact Hasc | ].
      rewrite Hmed. reflexivity.
    + inversion Hpres as [ | ? ? Hx Hr ]; subst.
      destruct (fold_min_spec r x Hx Hr) as (Hin & Hall).
      eexists. repeat split; [ exact Hin | exact Hall ].
    + inversion Hpres as [ | ? ? Hx Hr ]; subst.
      destruct (fold_max_spec r x Hx Hr) as (Hin & Hall).
      eexists. repeat split; [ exact Hin | exact Hall ].
Qed.

(** C8 (failing input).  When no comp could be fetched the frame has no
    rows, hence no columns, and [calculate_multiples] raises [KeyError]
    instead of returning count 0 for every multiple. *)
Theorem no_peers_key_error :
  comp_data analysis_no_peers = Some []
  /\ calculate_multiples analysis_no_peers = Raise KeyError.
Proof. split; reflexivity. Qed.

Lemma present_not_nan (v : pyval) (x : xfloat) : present v = Some x -> is_nan x = false.
Proof.
  destruct v as [ | n]; simpl; [ discriminate | ].
  destruct (is_nan (val n)) eqn:E; [ discriminate | ]. intros [= <-]. exact E.
Qed.

Lemma dropna_values_missing (col : string) (rows : list (gmap string pyval)) :
  Forall (missing col) rows ->
  dropna_values (map (fun row => dict_get row col) rows) = [].
Proof.
  induction 1 as [ | row rows Hrow _ IH]; [ reflexivity | ].
  unfold dropna_values in *. simpl. unfold missing in Hrow. rewrite Hrow. exact IH.
Qed.

Lemma dropna_values_app (a b : list pyval) :
  dropna_values (a ++ b) = dropna_values a ++ dropna_values b.
Proof. apply omap_app. Qed.

Lemma dropna_values_cons (v : pyval) (s : list pyval) :
  dropna_values (v :: s)
  = match present v with Some x => x :: dropna_values s | None => dropna_values s end.
Proof. reflexivity. Qed.

Lemma dropna_values_single (col : string) (before after : list (gmap string pyval))
    (p : gmap string pyval) (v : xfloat) :
  present (dict_get p col) = Some v ->
  Forall (missing col) before ->
  Forall (missing col) after ->
  dropna_values (map (fun row => dict_get row col) (before ++ p :: after)) = [v].
Proof.
  intros Hp Hb Ha.
  rewrite map_app, dropna_values_app, (dropna_values_missing col before Hb).
  rewrite map_cons, dropna_values_cons, Hp, (dropna_values_missing col after Ha).
  reflexivity.
Qed.

Lemma of_nat_one : of_nat 1 = Fin 1.
Proof. unfold of_nat. f_equal. apply Qc_is_canon. reflexivity. Qed.

Lemma xdiv_one (x : xfloat) : xdiv x (Fin 1) = x.
Proof.
  assert (H1 : (1 : Qc) <> 0) by by_eval.
  destruct x as [q | | | ]; unfold xdiv; try reflexivity.
  rewrite bool_decide_eq_false_2 by exact H1. f_equal. field. exact H1.
Qed.

Lemma xadd_zero_l (x : xfloat) : xadd (Fin 0) x = x.
Proof. destruct x as [q | | | ]; simpl; try reflexivity. f_equal. ring. Qed.

Lemma series_mean_single (v : xfloat) : series_mean [v] = v.
Proof.
  unfold series_mean, series_sum. simpl fold_left. simpl length.
  rewrite of_nat_one, xdiv_one. apply xadd_zero_l.
Qed.

Lemma median_single (v : xfloat) : is_nan v = false -> median [v] = v.
Proof.
  intros Hv. unfold median.
  rewrite dropna_id by (constructor; [ exact Hv | constructor ]). reflexivity.
Qed.

(** C10. When exactly one peer of the comp group provides a multiple, its
    row of statistics has count 1, its mean, median, min and max are all
    that single value, and its std is there (not [None]) but is NaN: the
    deviation is divided by [count - 1]. *)
Theorem single_peer_stats (self : CompAnalysis)
    (before after : list (gmap string pyval)) (p : gmap string pyval)
    (col : string) (v : xfloat) :
  comp_data self = Some (before ++ p :: after) ->
  Forall is_metrics (before ++ p :: after) ->
  col ∈ multiple_cols ->
  present (dict_get p col) = Some v ->
  Forall (missing col) before ->
  Forall (missing col) after ->
  exists stats row,
    calculate_multiples self = Ok stats
    /\ row ∈ stats
    /\ multiple row = col
    /\ stat_count row = 1%nat
    /\ stat_mean row = VNum (Np v)
    /\ stat_median row = VNum (Np v)
    /\ stat_min row = VNum (Np v)
    /\ stat_max row = VNum (Np v)
    /\ stat_std row = Some (Sqrt NaN)
    /\ root_is_nan (Sqrt NaN) = true.
Proof.
  intros Hdf Hall Hcol Hp Hb Ha.
  pose (f := fun c => column_stat c
               (dropna_values (map (fun row => dict_get row c) (before ++ p :: after)))).
  exists (map f multiple_cols), (f col).
  split.
  { apply calculate_multiples_ok; [ exact Hdf | | exact Hall ].
    destruct before; discriminate. }
  split.
  { change (map f multiple_cols) with (f <$> multiple_cols).
    apply list_elem_of_fmap_2, Hcol. }
  unfold f. rewrite (dropna_values_single col before after p v Hp Hb Ha).
  pose proof (present_not_nan _ _ Hp) as Hv.
  unfold column_stat. simpl.
  rewrite series_mean_single, (median_single v Hv).
  repeat split.
Qed.

Lemma single_peer_stats_witness :
  exists stats row,
    calculate_multiples analysis_pe = Ok stats
    /\ row ∈ stats
    /\ multiple row = "pe_ratio"
    /\ stat_count row = 1%nat
    /\ stat_mean row = VNum (np_dec 25 1)
    /\ stat_median row = VNum (np_dec 25 1)
    /\ stat_min row = VNum (np_dec 25 1)
    /\ stat_max row = VNum (np_dec 25 1)
    /\ stat_std row = Some (Sqrt NaN)
    /\ root_is_nan (Sqrt NaN) = true.
Proof.
  apply (single_peer_stats analysis_pe [] [_extract_metrics ∅]
           (_extract_metrics {[ "trailingPE" := num_val 25 1 ]})
           "pe_ratio" (Fin (dec 25 1))).
  - reflexivity.
  - repeat constructor; eexists; reflexivity.
  - repeat constructor.
  - vm_compute. reflexivity.
  - constructor.
  - repeat constructor.
Defined.

(** ** Valuing the target *)

(** C4 (failing input).  The target has a P/E of 20 but no price and the
    peers have a median P/E: the P/E rule is not skipped, [None / 20]
    raises [TypeError] out of [value_target]. *)
Theorem price_missing_type_error :
  (exists target,
     target_data analysis_price_missing = Some target
     /\ dict_get target "price" = VNone
     /\ dict_get target "pe_ratio" = num_val 20 1)
  /\ value_target analysis_price_missing Median = Raise TypeError.
Proof.
  split.
  - eexists. split; [ reflexivity | ]. split; vm_compute; reflexivity.
  - vm_compute. reflexivity.
Qed.


(** The P/E rule of the specification: price 50 and P/E 20 against a peer
    median of 25 give an implied price of 62.5, and nothing else. *)
Lemma pe_rule_example :
  value_target analysis_pe Median
  = Ok {| v_method := Median;
          valuations :=
            {[ "PE" := ImpliedPrice (np_dec 625 10) (np_dec 25 1) (num_val 50 1) ]} |}.
Proof. by_eval. Qed.

(** A price of 0 is skipped by [if eps:]; an enterprise value of 0 is not
    skipped by the EV/EBITDA rule, which writes an implied value of 0. *)
Lemma zero_price_and_zero_ev :
  value_target analysis_price_zero Median
  = Ok {| v_method := Median; valuations := ∅ |}
  /\ value_target analysis_ev_zero Median
     = Ok {| v_method := Median;
             valuations :=
               {[ "EV/EBITDA" := ImpliedEV (np_dec 0 1) (np_dec 12 1) (num_val 0 1) ]} |}.
Proof. split; by_eval. Qed.

Lemma truthy_num (v : pyval) :
  truthy v = true -> exists n, v = VNum n /\ is_zero (val n) = false.
Proof.
  destruct v as [ | n]; simpl; [ discriminate | ].
  intros H. exists n. split; [ reflexivity | ].
  destruct (is_zero (val n)); [ discriminate | reflexivity ].
Qed.

(** The guarded divisions of the rules never divide by zero. *)
Lemma py_truediv_truthy (a : num) (b : pyval) :
  truthy b = true -> exists q, py_truediv (VNum a) b = Ok (VNum q).
Proof.
  intros Hb. destruct (truthy_num b Hb) as (n & -> & Hn).
  destruct (ndiv_nonzero a n Hn) as (q & Hq & _).
  exists q. simpl. rewrite Hq. reflexivity.
Qed.

Lemma insert_lookup_cases (vs : gmap string implied) (k k' : string) (e : implied) :
  <[k' := e]> vs !! k = vs !! k \/ k = k'.
Proof.
  destruct (decide (k = k')) as [ -> | Hne ]; [ right; reflexivity | left ].
  apply lookup_insert_ne. congruence.
Qed.

(** One turn of the loop leaves an entry as it was unless its rule fires. *)
Lemma value_row_lookup (target : gmap string pyval) (m : method)
    (vs vs' : gmap string implied) (row : MultipleStat) (k : string) :
  value_row target m vs row = Ok vs' ->
  vs' !! k = vs !! k \/ rule_fires target m row k.
Proof.
  intros H. unfold value_row in H. unfold rule_fires.
  destruct (present (stat_of row m)) as [c | ] eqn:Ec;
    [ | injection H as <-; left; reflexivity ].
  case_bool_decide as Hpe.
  { destruct (truthy (dict_get target "pe_ratio")) eqn:Et.
    - run_stage H. destruct a as [ | e]; [ injection H as <-; left; reflexivity | ].
      destruct (truthy (VNum e)); injection H as <-; [ | left; reflexivity ].
      destruct (insert_lookup_cases vs k "PE"
                  (ImpliedPrice (nmul (Np c) e) (Np c) (dict_get target "price")))
        as [ Hk | -> ]; [ left; exact Hk | right ].
      split; [ eexists; reflexivity | left; repeat split; assumption ].
    - rewrite bind_ok in H. injection H as <-. left. reflexivity. }
  case_bool_decide as Hpb.
  { destruct (truthy (dict_get target "price_to_book")) eqn:Et.
    - run_stage H. destruct a as [ | e]; [ injection H as <-; left; reflexivity | ].
      destruct (truthy (VNum e)); injection H as <-; [ | left; reflexivity ].
      destruct (insert_lookup_cases vs k "P/B"
                  (ImpliedPrice (nmul (Np c) e) (Np c) (dict_get target "price")))
        as [ Hk | -> ]; [ left; exact Hk | right ].
      split; [ eexists; reflexivity | right; left; repeat split; assumption ].
    - rewrite bind_ok in H. injection H as <-. left. reflexivity. }
  case_bool_decide as Hev.
  { destruct (truthy (dict_get target "ev_to_ebitda")) eqn:Et.
    - run_stage H. destruct a as [ | e]; [ discriminate | ]. injection H as <-.
      destruct (insert_lookup_cases vs k "EV/EBITDA"
                  (ImpliedEV (nmul (Np c) e) (Np c) (dict_get target "enterprise_value")))
        as [ Hk | -> ]; [ left; exact Hk | right ].
      split; [ eexists; reflexivity | right; right; repeat split; assumption ].
    - injection H as <-. left. reflexivity. }
  injection H as <-. left. reflexivity.
Qed.

Lemma value_loop_lookup (target : gmap string pyval) (m : method)
    (stats : list MultipleStat) (vs vs' : gmap string implied) (k : string) :
  value_loop target m vs stats = Ok vs' ->
  vs' !! k = vs !! k \/ exists row, row ∈ stats /\ rule_fires target m row k.
Proof.
  revert vs. induction stats as [ | row stats IH]; intros vs H; simpl in H.
  - injection H as <-. left. reflexivity.
  - run_stage H.
    destruct (IH _ H) as [ Hk | (r & Hr & Hf) ].
    + destruct (value_row_lookup _ _ _ _ _ k Hstage) as [ Hk' | Hf ].
      * left. congruence.
      * right. exists row. split; [ apply list_elem_of_here | exact Hf ].
    + right. exists r. split; [ apply list_elem_of_further, Hr | exact Hf ].
Qed.

Lemma stats_loop_rows (df : list (gmap string pyval)) (cols : list string)
    (stats : list MultipleStat) :
  stats_loop df cols = Ok stats ->
  Forall (fun row => exists c values, row = column_stat c values) stats.
Proof.
  revert stats. induction cols as [ | c cols IH]; intros stats H; simpl in H.
  - injection H as <-. constructor.
  - run_stage H. run_stage H. injection H as <-.
    constructor; [ eexists _, _; reflexivity | apply IH; reflexivity ].
Qed.

Lemma column_stat_known (c : string) (values : list xfloat) (m : method) :
  is_Some (present (stat_of (column_stat c values) m)) ->
  stat_count (column_stat c values) <> 0%nat.
Proof.
  unfold column_stat. destruct values as [ | x r]; simpl.
  - destruct m; simpl; intros [? H]; discriminate.
  - discriminate.
Qed.

(** The skip policy of [value_target]: every entry of the returned
    valuations belongs to a rule whose peer statistic is known (its count
    is not 0) and whose target multiple is neither missing nor zero.  So a
    multiple with an unknown peer statistic, or with a missing or zero
    target multiple, has no entry. *)
Lemma value_target_entries (self : CompAnalysis) (m : method) (v : Valuations) (k : string) :
  value_target self m = Ok v ->
  is_Some (valuations v !! k) ->
  exists target stats row,
    target_data self = Some target
    /\ calculate_multiples self = Ok stats
    /\ row ∈ stats
    /\ stat_count row <> 0%nat
    /\ rule_fires target m row k.
Proof.
  intros H Hk. unfold value_target in H.
  destruct (target_data self) as [target | ] eqn:Et; [ | discriminate ].
  destruct (comp_data self) as [df | ] eqn:Ed; [ | discriminate ].
  run_stage H. run_stage H. injection H as <-. simpl in Hk.
  destruct (value_loop_lookup _ _ _ _ _ k Hstage0) as [ Hk' | (row & Hrow & Hf) ].
  - rewrite Hk', lookup_empty in Hk. destruct Hk as [? Hk]. discriminate.
  - exists target, a, row.
    split; [ reflexivity | ]. split; [ reflexivity | ]. split; [ exact Hrow | ].
    split; [ | exact Hf ].
    unfold calculate_multiples in Hstage. rewrite Ed in Hstage.
    pose proof (stats_loop_rows _ _ _ Hstage) as Hall.
    rewrite Forall_forall in Hall. destruct (Hall row Hrow) as (c & values & ->).
    apply (column_stat_known c values m). exact (proj1 Hf).
Qed.

Section Priced.

(** A target that has a price and an enterprise value. *)
Variables (target : gmap string pyval) (m : method) (p e : num).
Hypothesis Hprice : dict_get target "price" = VNum p.
Hypothesis Hev : dict_get target "enterprise_value" = VNum e.

Lemma value_row_total (vs : gmap string implied) (row : MultipleStat) :
  exists vs', value_row target m vs row = Ok vs'.
Proof.
  unfold value_row. rewrite Hprice, Hev.
  destruct (present (stat_of row m)) as [c | ]; [ | eexists; reflexivity ].
  case_bool_decide.
  { destruct (truthy (dict_get target "pe_ratio")) eqn:Et.
    - destruct (py_truediv_truthy p _ Et) as (q & ->). rewrite bind_ok.
      destruct (truthy (VNum q)); eexists; reflexivity.
    - rewrite bind_ok. eexists; reflexivity. }
  case_bool_decide.
  { destruct (truthy (dict_get target "price_to_book")) eqn:Et.
    - destruct (py_truediv_truthy p _ Et) as (q & ->). rewrite bind_ok.
      destruct (truthy (VNum q)); eexists; reflexivity.
    - rewrite bind_ok. eexists; reflexivity. }
  case_bool_decide.
  { destruct (truthy (dict_get target "ev_to_ebitda")) eqn:Et.
    - destruct (py_truediv_truthy e _ Et) as (q & ->). rewrite bind_ok.
      eexists; reflexivity.
    - eexists; reflexivity. }
  eexists; reflexivity.
Qed.

Lemma value_loop_total (stats : list MultipleStat) (vs : gmap string implied) :
  exists vs', value_loop target m vs stats = Ok vs'.
Proof.
  revert vs. induction stats as [ | row stats IH]; intros vs; simpl.
  - eexists; reflexivity.
  - destruct (value_row_total vs row) as (vs1 & ->).
    rewrite bind_ok. apply IH.
Qed.

End Priced.

(** With at least one peer fetched and a target that has a price and an
    enterprise value, [value_target] returns. *)
Lemma value_target_total (self : CompAnalysis) (m : method)
    (target : gmap string pyval) (df : list (gmap string pyval)) (p e : num) :
  target_data self = Some target ->
  comp_data self = Some df ->
  df <> [] ->
  Forall is_metrics df ->
  dict_get target "price" = VNum p ->
  dict_get target "enterprise_value" = VNum e ->
  exists v, value_target self m = Ok v.
Proof.
  intros Ht Hd Hne Hall Hp He. unfold value_target. rewrite Ht, Hd.
  rewrite (calculate_multiples_ok self df Hd Hne Hall), bind_ok.
  destruct (value_loop_total target m p e Hp He
              (map (fun c => column_stat c
                      (dropna_values (map (fun row => dict_get row c) df))) multiple_cols)
              ∅) as (vs & ->).
  rewrite bind_ok. eexists; reflexivity.
Qed.

(** * Further properties of the two models *)

(** ** Discounting and projecting in closed form *)

Lemma xpow_fin (a : Qc) (n : nat) : xpow (Fin a) n = Fin (a ^ n).
Proof. induction n as [ | n IH]; simpl; [ reflexivity | rewrite IH; reflexivity ]. Qed.

Lemma qc_power_nonzero (a : Qc) (n : nat) : a <> 0 -> a ^ n <> 0.
Proof.
  intros Ha. induction n as [ | n IH]; simpl.
  - by_eval.
  - intros H. apply Qcmult_integral in H. destruct H; contradiction.
Qed.

Lemma discount_factor (self : DCFModel) (w : Qc) (t : nat) :
  wacc self = Py (Fin w) ->
  npow (nadd one (wacc self)) t = Py (Fin ((1 + w) ^ t)).
Proof. intros ->. simpl. rewrite xpow_fin. reflexivity. Qed.

Lemma ndiv_py_fin (a b : Qc) :
  b <> 0 -> ndiv (Py (Fin a)) (Py (Fin b)) = Ok (Py (Fin (a / b))).
Proof.
  intros Hb. unfold ndiv. simpl.
  rewrite !bool_decide_eq_false_2 by exact Hb. reflexivity.
Qed.

Lemma ndiv_py_zero (a : xfloat) : ndiv (Py a) (Py (Fin 0)) = Raise ZeroDivisionError.
Proof. reflexivity. Qed.

Lemma discount_loop_closed (self : DCFModel) (w : Qc) (cfs : list Qc) (t : nat) :
  wacc self = Py (Fin w) ->
  1 + w <> 0 ->
  discount_loop self t (map (fun c => Py (Fin c)) cfs)
  = Ok (imap (fun i c => Py (Fin (c / (1 + w) ^ (t + i)))) cfs).
Proof.
  intros Hw Hne. revert t. induction cfs as [ | c cfs IH]; intros t; [ reflexivity | ].
  simpl. rewrite (discount_factor self w t Hw).
  rewrite ndiv_py_fin by (apply qc_power_nonzero, Hne).
  rewrite bind_ok, IH, bind_ok. rewrite Nat.add_0_r. do 2 f_equal.
  apply imap_ext. intros i x _. simpl. rewrite Nat.add_succ_r. reflexivity.
Qed.

(** X8.  On built-in floats with a finite wacc: whenever discounting
    returns, the present value of the cash flow of period t is
    cf / (1 + wacc) ^ t; with wacc = -1 and at least one cash flow it
    raises [ZeroDivisionError]. *)
Theorem discount_cash_flows_closed (self : DCFModel) (w : Qc) (cfs : list Qc) :
  wacc self = Py (Fin w) ->
  (forall pvs,
     discount_cash_flows self (map (fun c => Py (Fin c)) cfs) = Ok pvs ->
     pvs = imap (fun i c => Py (Fin (c / (1 + w) ^ S i))) cfs)
  /\ (1 + w = 0 -> cfs <> [] ->
      discount_cash_flows self (map (fun c => Py (Fin c)) cfs) = Raise ZeroDivisionError).
Proof.
  intros Hw.
  assert (Hzero : 1 + w = 0 -> cfs <> [] ->
                  discount_cash_flows self (map (fun c => Py (Fin c)) cfs)
                  = Raise ZeroDivisionError).
  { intros Hz Hcfs. destruct cfs as [ | c cfs]; [ contradiction | ].
    unfold discount_cash_flows. simpl. rewrite (discount_factor self w 1 Hw).
    simpl. rewrite Hz. replace (0 * 1) with 0 by ring. reflexivity. }
  split; [ | exact Hzero ].
  intros pvs Hrun. destruct (decide (1 + w = 0)) as [ Hz | Hne ].
  - destruct cfs as [ | c cfs].
    + unfold discount_cash_flows in Hrun. simpl in Hrun. injection Hrun as <-. reflexivity.
    + rewrite (Hzero Hz) in Hrun by discriminate. discriminate.
  - unfold discount_cash_flows in Hrun.
    rewrite (discount_loop_closed self w cfs 1 Hw Hne) in Hrun.
    injection Hrun as <-. reflexivity.
Qed.

Lemma discount_cash_flows_closed_witness :
  [py_dec 100 1; py_dec 100 1]
  = imap (fun i c => Py (Fin (c / (1 + dec 10 100) ^ S i))) [dec 110 1; dec 121 1]
  /\ discount_cash_flows model_wacc_minus_one (map (fun c => Py (Fin c)) [dec 110 1])
     = Raise ZeroDivisionError.
Proof.
  split.
  - apply (discount_cash_flows_closed scenario (dec 10 100) [dec 110 1; dec 121 1]).
    + reflexivity.
    + by_eval.
  - apply (discount_cash_flows_closed model_wacc_minus_one (dec (-1) 1) [dec 110 1]).
    + reflexivity.
    + by_eval.
    + discriminate.
Defined.

Lemma qc_power_ge_one (a : Qc) (n : nat) : 1 <= a -> 1 <= a ^ n.
Proof.
  intros Ha. induction n as [ | n IH]; simpl; [ apply Qcle_refl | ].
  apply Qcle_trans with (1 * a ^ n).
  - rewrite Qcmult_1_l. exact IH.
  - apply Qcmult_le_compat_r; [ exact Ha | ].
    apply Qcle_trans with 1; [ by_eval | exact IH ].
Qed.

Lemma qc_div_ge_one (c x : Qc) : 0 <= c -> 1 <= x -> 0 <= c / x /\ c / x <= c.
Proof.
  intros Hc Hx.
  assert (Hx0 : 0 < x) by (apply Qclt_le_trans with 1; [ by_eval | exact Hx ]).
  assert (Hne : x <> 0) by (intros ->; exact (Qclt_not_eq _ _ Hx0 eq_refl)).
  assert (Hinv : 0 < / x) by (apply Qcinv_pos, Hx0).
  split.
  - unfold Qcdiv. replace 0 with (0 * / x) by ring.
    apply Qcmult_le_compat_r; [ exact Hc | apply Qclt_le_weak, Hinv ].
  - apply Qcmult_lt_0_le_reg_r with x; [ exact Hx0 | ].
    replace (c / x * x) with c by (field; exact Hne).
    replace c with (c * 1) at 1 by ring.
    rewrite (Qcmult_comm c 1), (Qcmult_comm c x).
    apply Qcmult_le_compat_r; assumption.
Qed.

(** X9.  With a positive discount rate, whenever discounting returns it
    returns as many present values as there are cash flows, and the present
    value of a non-negative cash flow is non-negative and never exceeds the
    cash flow. *)
Theorem discount_cash_flows_bounded (self : DCFModel) (w : Qc) (cfs : list Qc)
    (pvs : list num) :
  wacc self = Py (Fin w) ->
  0 < w ->
  discount_cash_flows self (map (fun c => Py (Fin c)) cfs) = Ok pvs ->
  length pvs = length cfs
  /\ (forall i c, cfs !! i = Some c ->
        exists pv, pvs !! i = Some (Py (Fin pv))
                   /\ (0 <= c -> 0 <= pv /\ pv <= c)).
Proof.
  intros Hw Hpos Hrun.
  assert (Hge : 1 <= 1 + w).
  { replace 1 with (1 + 0) at 1 by ring. apply Qcplus_le_mono_l, Qclt_le_weak, Hpos. }
  assert (Hne : 1 + w <> 0).
  { intros H. rewrite H in Hge. revert Hge. by_eval. }
  unfold discount_cash_flows in Hrun.
  rewrite (discount_loop_closed self w cfs 1 Hw Hne) in Hrun. injection Hrun as <-.
  split; [ apply length_imap | ].
  intros i c Hc. exists (c / (1 + w) ^ S i). split.
  - rewrite list_lookup_imap, Hc. reflexivity.
  - intros Hc0.
    apply (qc_div_ge_one c ((1 + w) ^ S i)); [ exact Hc0 | apply qc_power_ge_one, Hge ].
Qed.

Lemma discount_cash_flows_bounded_witness :
  length [py_dec 100 1; py_dec 100 1] = 2%nat
  /\ (forall i c, [dec 110 1; dec 121 1] !! i = Some c ->
        exists pv, [py_dec 100 1; py_dec 100 1] !! i = Some (Py (Fin pv))
                   /\ (0 <= c -> 0 <= pv /\ pv <= c)).
Proof.
  apply (discount_cash_flows_bounded scenario (dec 10 100) [dec 110 1; dec 121 1]).
  - reflexivity.
  - vm_compute. reflexivity.
  - by_eval.
Defined.

(** ** Terminal value above and at the growth rate *)

Lemma qc_div_pos_pos (a b : Qc) : 0 < a -> 0 < b -> 0 < a / b.
Proof. intros Ha Hb. apply Qcmult_pos_pos; [ exact Ha | apply Qcinv_pos, Hb ]. Qed.

(** X6.  With wacc above the terminal growth rate the terminal value is the
    perpetuity formula, and it is positive whenever finalYearFCF * (1 + g)
    is. *)
Theorem terminal_value_above_growth (self : DCFModel) (final_fcf : num) (f r g : Qc) :
  val final_fcf = Fin f ->
  wacc self = Py (Fin r) ->
  terminal_growth_rate self = Py (Fin g) ->
  g < r ->
  exists tv, calculate_terminal_value self final_fcf = Ok tv
             /\ val tv = Fin (f * (1 + g) / (r - g))
             /\ (0 < f * (1 + g) -> xlt (Fin 0) (val tv) = true).
Proof.
  intros Hf Hr Hg Hlt.
  destruct (terminal_value_finite self final_fcf f r g Hf Hr Hg) as (tv & Htv & Hv).
  { intros ->. exact (Qclt_not_eq _ _ Hlt eq_refl). }
  exists tv. split; [ exact Htv | ]. split; [ exact Hv | ].
  intros Hpos. rewrite Hv. simpl. apply bool_decide_eq_true_2.
  apply qc_div_pos_pos; [ exact Hpos | ].
  apply (Qcplus_lt_mono_r _ _ g). ring_simplify. exact Hlt.
Qed.

Lemma xdiv_zero_not_finite (x : xfloat) :
  match xdiv x (Fin 0) with Fin _ => False | _ => True end.
Proof.
  destruct x as [q | | | ]; simpl; try exact I.
  destruct (q ?= 0); exact I.
Qed.

(** X7.  With wacc equal to the terminal growth rate every call on a built-in
    float raises [ZeroDivisionError], and every call on a numpy scalar
    returns a value that is not a finite number. *)
Theorem terminal_value_equal_rates (self : DCFModel) (x : xfloat) (r : Qc) :
  wacc self = Py (Fin r) ->
  terminal_growth_rate self = Py (Fin r) ->
  calculate_terminal_value self (Py x) = Raise ZeroDivisionError
  /\ exists y, calculate_terminal_value self (Np x) = Ok (Np y)
               /\ match y with Fin _ => False | _ => True end.
Proof.
  intros Hr Hg. unfold calculate_terminal_value. rewrite Hr, Hg.
  assert (Hz : nsub (Py (Fin r)) (Py (Fin r)) = Py (Fin 0)).
  { unfold nsub, lift2. simpl. do 2 f_equal. ring. }
  rewrite Hz. split; [ reflexivity | ].
  eexists. split; [ reflexivity | ]. apply xdiv_zero_not_finite.
Qed.

(** ** Projection in closed form *)

Lemma project_loop_closed (n k : nat) (b g : Qc) :
  project_loop n (Py (Fin (b * (1 + g) ^ k))) (Py (Fin g))
  = map (fun i => Py (Fin (b * (1 + g) ^ S i))) (seq k n).
Proof.
  revert k. induction n as [ | n IH]; intros k; [ reflexivity | ].
  simpl project_loop. simpl seq. simpl map.
  assert (Hstep : nmul (Py (Fin (b * (1 + g) ^ k))) (nadd one (Py (Fin g)))
                  = Py (Fin (b * (1 + g) ^ S k))).
  { unfold nmul, nadd, lift2. simpl. do 2 f_equal. ring. }
  rewrite Hstep. f_equal. apply IH.
Qed.

(** X5.  The projected flow of period [i + 1] is base * (1 + g) ^ (i + 1). *)
Theorem project_fcf_closed (self : DCFModel) (b g : Qc) :
  project_fcf self (Py (Fin b)) (Py (Fin g))
  = map (fun i => Py (Fin (b * (1 + g) ^ S i))) (seq 0 (Z.to_nat (forecast_years self))).
Proof.
  unfold project_fcf.
  replace b with (b * (1 + g) ^ 0) at 1 by (simpl; ring).
  apply project_loop_closed.
Qed.

(** ** Growing and discounting at the same rate *)


Lemma terminal_value_above_growth_witness :
  exists tv, calculate_terminal_value scenario (py_dec 121 1) = Ok tv
             /\ val tv = Fin (dec 121 1 * (1 + dec 25 1000) / (dec 10 100 - dec 25 1000))
             /\ (0 < dec 121 1 * (1 + dec 25 1000) -> xlt (Fin 0) (val tv) = true).
Proof.
  apply (terminal_value_above_growth scenario (py_dec 121 1)
           (dec 121 1) (dec 10 100) (dec 25 1000)).
  - reflexivity.
  - reflexivity.
  - reflexivity.
  - vm_compute. reflexivity.
Defined.

Lemma terminal_value_equal_rates_witness :
  calculate_terminal_value model_equal_rates (Py (Fin (dec 121 1))) = Raise ZeroDivisionError
  /\ exists y, calculate_terminal_value model_equal_rates (Np (Fin (dec 121 1))) = Ok (Np y)
               /\ match y with Fin _ => False | _ => True end.
Proof.
  apply (terminal_value_equal_rates model_equal_rates (Fin (dec 121 1)) (dec 25 1000)).
  - reflexivity.
  - reflexivity.
Defined.


(** ** Growth rate of a history without zeros, and of a rescaled history *)


Lemma pct_change_from_length (prev : xfloat) (s : list xfloat) :
  length (pct_change_from prev s) = length s.
Proof.
  revert prev. induction s as [ | x s IH]; intros prev; simpl; [ | rewrite IH ]; reflexivity.
Qed.

Lemma finite_not_nan (v : list xfloat) :
  Forall (fun x => exists q, x = Fin q) v -> Forall (fun y => is_nan y = false) v.
Proof.
  intros H. eapply Forall_impl; [ exact H | ]. intros x (q & ->). reflexivity.
Qed.





Lemma qc_compare_scale (c b : Qc) : 0 < c -> (c * b ?= 0) = (b ?= 0).
Proof.
  intros Hc. destruct (b ?= 0) eqn:E.
  - apply Qceq_alt in E. subst b. apply Qceq_alt. ring.
  - apply Qclt_alt in E. apply Qclt_alt.
    assert (Hnb : 0 < - b).
    { apply (Qcplus_lt_mono_r _ _ b). ring_simplify. exact E. }
    pose proof (Qcmult_pos_pos _ _ Hc Hnb) as Hp.
    apply (Qcplus_lt_mono_r _ _ (c * - b)).
    replace (c * b + c * - b) with 0 by ring. rewrite Qcplus_0_l. exact Hp.
  - apply Qcgt_alt in E. apply Qcgt_alt. apply Qcmult_pos_pos; assumption.
Qed.

Lemma pct_change_from_scale (c prev : Qc) (h : list Qc) :
  0 < c ->
  pct_change_from (Fin (c * prev)) (map Fin (map (Qcmult c) h))
  = pct_change_from (Fin prev) (map Fin h).
Proof.
  intros Hc.
  assert (Hc0 : c <> 0) by (intros ->; exact (Qclt_not_eq _ _ Hc eq_refl)).
  revert prev. induction h as [ | x h IH]; intros prev; [ reflexivity | ].
  simpl. rewrite IH. f_equal. f_equal.
  destruct (decide (prev = 0)) as [ -> | Hp ].
  - replace (c * 0) with 0 by ring.
    rewrite !bool_decide_eq_true_2 by reflexivity.
    rewrite qc_compare_scale by exact Hc. reflexivity.
  - assert (Hcp : c * prev <> 0).
    { intros H. apply Qcmult_integral in H. destruct H; contradiction. }
    rewrite !bool_decide_eq_false_2 by assumption.
    f_equal. field. split; assumption.
Qed.

(** X4.  The growth rate does not depend on the unit of the history: scaling
    every value by the same positive factor leaves it unchanged. *)
Theorem growth_rate_scale_invariant (c : Qc) (h : list Qc) :
  0 < c ->
  calculate_fcf_growth_rate (map (Qcmult c) h) = calculate_fcf_growth_rate h.
Proof.
  intros Hc. unfold calculate_fcf_growth_rate. rewrite length_map.
  destruct (length h <? 2)%nat; [ reflexivity | ].
  destruct h as [ | a h]; [ reflexivity | ].
  change (pct_change (map Fin (map (Qcmult c) (a :: h))))
    with (NaN :: pct_change_from (Fin (c * a)) (map Fin (map (Qcmult c) h))).
  rewrite (pct_change_from_scale c a h Hc). reflexivity.
Qed.

Lemma growth_rate_scale_invariant_witness :
  calculate_fcf_growth_rate (map (Qcmult (dec 1000 1)) [dec 50 1; dec 55 1; dec 50 1; dec 100 1])
  = calculate_fcf_growth_rate [dec 50 1; dec 55 1; dec 50 1; dec 100 1].
Proof. apply growth_rate_scale_invariant. vm_compute. reflexivity. Defined.

(** ** How a DCF run fails *)

Section Front.

Variable self : DCFModel.
Hypothesis Hh : historical_fcf (stock self) <> [].
Hypothesis Hy : (1 <= forecast_years self)%Z.

(** The stages up to the enterprise value all succeed. *)
Lemma dcf_front :
  exists q fin tv pvs pvt,
    last_item (map (fun q => Np (Fin q)) (historical_fcf (stock self))) = Ok (Np (Fin q))
    /\ last_item (project_fcf self (Np (Fin q))
                    (calculate_fcf_growth_rate (historical_fcf (stock self)))) = Ok fin
    /\ calculate_terminal_value self fin = Ok tv
    /\ discount_cash_flows self
         (project_fcf self (Np (Fin q))
            (calculate_fcf_growth_rate (historical_fcf (stock self)))) = Ok pvs
    /\ ndiv tv (npow (nadd one (wacc self)) (Z.to_nat (forecast_years self))) = Ok pvt
    /\ is_np pvt = true.
Proof.
  destruct (last_map_nonempty (fun q => Np (Fin q)) _ Hh) as (q & _ & Hlast).
  pose (g := calculate_fcf_growth_rate (historical_fcf (stock self))).
  pose (proj := project_fcf self (Np (Fin q)) g).
  assert (Hnp : Forall (fun x => is_np x = true) proj) by (apply project_loop_np; reflexivity).
  assert (Hlen : length proj = Z.to_nat (forecast_years self)) by apply project_loop_length.
  destruct (last proj) as [fin | ] eqn:Hfin;
    [ | apply last_None in Hfin; rewrite Hfin in Hlen; simpl in Hlen; lia ].
  assert (Hfin_np : is_np fin = true).
  { rewrite Forall_forall in Hnp. apply Hnp. rewrite last_lookup in Hfin.
    eapply list_elem_of_lookup_2. exact Hfin. }
  destruct (discount_loop_np self proj 1 Hnp) as (pvs & Hpvs & _).
  exists q, fin. eexists. exists pvs. eexists.
  split; [ unfold last_item; rewrite Hlast; reflexivity | ].
  split; [ unfold last_item; fold g; fold proj; rewrite Hfin; reflexivity | ].
  split.
  { unfold calculate_terminal_value. apply ndiv_np.
    unfold nmul. rewrite lift2_np_l by exact Hfin_np. reflexivity. }
  split; [ exact Hpvs | ].
  split; [ apply ndiv_np; reflexivity | reflexivity ].
Qed.

(** From there a run fails only on a [None] share count or price. *)
Lemma dcf_back :
  (info (stock self) !! "sharesOutstanding" = Some VNone ->
   calculate_enterprise_value self = Raise TypeError)
  /\ (info (stock self) !! "sharesOutstanding" <> Some VNone ->
      info (stock self) !! "currentPrice" = Some VNone ->
      calculate_enterprise_value self = Raise TypeError).
Proof.
  destruct dcf_front as (q & fin & tv & pvs & pvt & H1 & H2 & H3 & H4 & H5 & Hnp).
  split.
  - intros Hs. unfold calculate_enterprise_value.
    rewrite H1, bind_ok, H2, bind_ok, H3, bind_ok, H4, bind_ok, H5, bind_ok.
    unfold dict_get_or. rewrite Hs. reflexivity.
  - intros Hs Hp. unfold calculate_enterprise_value.
    rewrite H1, bind_ok, H2, bind_ok, H3, bind_ok, H4, bind_ok, H5, bind_ok.
    destruct (as_num_info _ _ Hs) as (sh & -> & _). rewrite bind_ok.
    match goal with
    | |- context [ if nlt zero sh then ndiv ?e sh else Ok zero ] =>
        assert (Hi : exists intr, (if nlt zero sh then ndiv e sh else Ok zero) = Ok intr)
    end.
    { destruct (nlt zero sh); [ | eexists; reflexivity ].
      eexists. apply ndiv_np. unfold nsub. rewrite lift2_np_l; [ reflexivity | ].
      unfold nadd at 1. rewrite lift2_np_l; [ reflexivity | ].
      unfold nadd. rewrite lift2_np_r; [ reflexivity | exact Hnp ]. }
    destruct Hi as (intr & ->). rewrite bind_ok.
    unfold dict_get_or. rewrite Hp. reflexivity.
Qed.

End Front.

(** The exceptions of a run from the returned series on, the power being
    exact: an [IndexError] or a [TypeError]. *)
Lemma dcf_raises (self : DCFModel) (e : exn) :
  calculate_enterprise_value self = Raise e -> e = IndexError \/ e = TypeError.
Proof.
  intros He.
  destruct (decide (historical_fcf (stock self) = [])) as [ E1 | E1 ].
  { unfold calculate_enterprise_value in He. rewrite E1 in He. left. simpl in He. congruence. }
  destruct (Z_lt_le_dec (forecast_years self) 1) as [ E2 | E2 ].
  { destruct (last_map_nonempty (fun q => Np (Fin q)) _ E1) as (q & _ & Hlast).
    unfold calculate_enterprise_value, last_item in He. rewrite Hlast, bind_ok in He.
    unfold project_fcf in He.
    replace (Z.to_nat (forecast_years self)) with 0%nat in He by lia.
    left. simpl in He. congruence. }
  destruct (dcf_back self E1 E2) as (Hs & Hp).
  destruct (decide (info (stock self) !! "sharesOutstanding" = Some VNone)) as [ E3 | E3 ].
  { rewrite (Hs E3) in He. right. congruence. }
  destruct (decide (info (stock self) !! "currentPrice" = Some VNone)) as [ E4 | E4 ].
  { rewrite (Hp E3 E4) in He. right. congruence. }
  destruct (dcf_run self E1 E2 E3 E4) as (r & _ & Hr & _). congruence.
Qed.

(** X11.  On the series that [get_historical_fcf] returned, a run raises
    [IndexError] when the series is empty and when the horizon is below one
    period; and it returns a result only on a non-empty series, with a
    horizon of at least one period and neither the share count nor the
    price being [None]. *)
Theorem enterprise_value_errors (self : DCFModel) :
  (historical_fcf (stock self) = [] ->
   calculate_enterprise_value self = Raise IndexError)
  /\ (historical_fcf (stock self) <> [] -> (forecast_years self < 1)%Z ->
      calculate_enterprise_value self = Raise IndexError)
  /\ (forall r, calculate_enterprise_value self = Ok r ->
        historical_fcf (stock self) <> []
        /\ (1 <= forecast_years self)%Z
        /\ info (stock self) !! "sharesOutstanding" <> Some VNone
        /\ info (stock self) !! "currentPrice" <> Some VNone).
Proof.
  split; [ | split ].
  - intros He. unfold calculate_enterprise_value. rewrite He. reflexivity.
  - intros Hne Hlt.
    destruct (last_map_nonempty (fun q => Np (Fin q)) _ Hne) as (q & _ & Hlast).
    unfold calculate_enterprise_value, last_item. rewrite Hlast, bind_ok.
    unfold project_fcf. replace (Z.to_nat (forecast_years self)) with 0%nat by lia.
    reflexivity.
  - intros r Hr. exact (dcf_returns_inv self r Hr).
Qed.

Lemma enterprise_value_errors_witness :
  calculate_enterprise_value model_3y = Raise IndexError
  /\ historical_fcf (stock scenario) <> [].
Proof.
  split.
  - apply (proj1 (enterprise_value_errors model_3y)). reflexivity.
  - destruct (enterprise_value_errors scenario) as (_ & _ & H).
    apply (H scenario_result). by_eval.
Defined.

(** X20.  Whatever the rates, the horizon and the provider data, a run
    never raises [ZeroDivisionError]: the cash flows are numpy scalars, and
    the divisions by the share count and by the price are guarded. *)
Theorem enterprise_value_no_zero_division (self : DCFModel) :
  calculate_enterprise_value self <> Raise ZeroDivisionError.
Proof.
  intros He. destruct (dcf_raises self ZeroDivisionError He); discriminate.
Qed.

(** X12.  Without a positive share count the per-share value is 0, and against a
    positive price the upside is then -100 percent. *)
Theorem upside_without_shares (self : DCFModel) (r : DCFResult) (p : Qc) :
  calculate_enterprise_value self = Ok r ->
  nlt zero (shares_outstanding r) = false ->
  current_price r = Py (Fin p) ->
  0 < p ->
  intrinsic_value_per_share r = zero
  /\ upside_downside_pct r = Py (Fin (dec (-100) 1)).
Proof.
  intros Hrun Hsh Hpr Hp.
  destruct (dcf_returns_inv self r Hrun) as (Hh & Hy & Hs & Hpn).
  destruct (dcf_run self Hh Hy Hs Hpn)
    as (r' & pv & Hr & _ & _ & _ & _ & _ & _ & _ & _ & _ & _ & _ & _ & _ & Hintr & _ & Hup).
  assert (r' = r) by congruence. subst r'.
  rewrite Hsh in Hintr. split; [ exact Hintr | ].
  rewrite Hintr, Hpr in Hup.
  assert (Hpos : nlt zero (Py (Fin p)) = true) by (apply bool_decide_eq_true_2, Hp).
  rewrite Hpos in Hup. destruct Hup as (q & Hq & ->).
  assert (Hp0 : p <> 0) by (intros ->; exact (Qclt_not_eq _ _ Hp eq_refl)).
  unfold zero, nsub, lift2 in Hq. simpl in Hq.
  rewrite ndiv_py_fin in Hq by exact Hp0. injection Hq as <-.
  unfold nmul, lift2. simpl. do 2 f_equal.
  assert (H100 : dec (-100) 1 = - dec 100 1) by by_eval.
  rewrite H100. generalize (dec 100 1). intros c. field. exact Hp0.
Qed.

Lemma upside_without_shares_witness :
  calculate_enterprise_value scenario_no_shares = Ok scenario_no_shares_result
  /\ intrinsic_value_per_share scenario_no_shares_result = zero
  /\ upside_downside_pct scenario_no_shares_result = Py (Fin (dec (-100) 1)).
Proof.
  assert (Hrun : calculate_enterprise_value scenario_no_shares = Ok scenario_no_shares_result)
    by by_eval.
  split; [ exact Hrun | ].
  apply (upside_without_shares scenario_no_shares scenario_no_shares_result (dec 10 1)).
  - exact Hrun.
  - reflexivity.
  - reflexivity.
  - vm_compute. reflexivity.
Defined.

(** ** The historical series *)

Lemma insert_by_date_perm (e : Z * xfloat) (s : list (Z * xfloat)) :
  insert_by_date e s ≡ₚ e :: s.
Proof.
  induction s as [ | y s IH]; simpl; [ reflexivity | ].
  destruct (e.1 <=? y.1)%Z; [ reflexivity | ].
  rewrite IH. apply Permutation_swap.
Qed.

Lemma sort_index_perm (s : list (Z * xfloat)) : sort_index s ≡ₚ s.
Proof.
  induction s as [ | e s IH]; simpl; [ reflexivity | ].
  rewrite insert_by_date_perm, IH. reflexivity.
Qed.

Lemma insert_by_date_sorted (e : Z * xfloat) (s : list (Z * xfloat)) :
  StronglySorted (fun a b => (a.1 <= b.1)%Z) s ->
  StronglySorted (fun a b => (a.1 <= b.1)%Z) (insert_by_date e s).
Proof.
  induction 1 as [ | y s Hs IH Hy]; simpl.
  - repeat constructor.
  - destruct (e.1 <=? y.1)%Z eqn:E.
    + apply Z.leb_le in E. constructor; [ constructor; assumption | ].
      constructor; [ exact E | ].
      eapply Forall_impl; [ exact Hy | ]. simpl. intros z Hz. lia.
    + apply Z.leb_gt in E. constructor; [ exact IH | ].
      rewrite insert_by_date_perm. constructor; [ lia | exact Hy ].
Qed.

Lemma sort_index_sorted (s : list (Z * xfloat)) :
  StronglySorted (fun a b => (a.1 <= b.1)%Z) (sort_index s).
Proof.
  induction s as [ | e s IH]; simpl; [ constructor | ].
  apply insert_by_date_sorted, IH.
Qed.

Lemma sorted_last_latest (s : list (Z * xfloat)) (e : Z * xfloat) :
  StronglySorted (fun a b => (a.1 <= b.1)%Z) s ->
  last s = Some e ->
  forall e', e' ∈ s -> (e'.1 <= e.1)%Z.
Proof.
  induction 1 as [ | y s Hs IH Hy]; intros Hlast e' Hin.
  - discriminate.
  - destruct s as [ | z s].
    + simpl in Hlast. injection Hlast as <-.
      apply list_elem_of_singleton in Hin. subst e'. lia.
    + change (last (y :: z :: s)) with (last (z :: s)) in Hlast.
      apply elem_of_cons in Hin. destruct Hin as [ -> | Hin ].
      * rewrite Forall_forall in Hy. apply Hy.
        rewrite last_lookup in Hlast. eapply list_elem_of_lookup_2. exact Hlast.
      * apply IH; assumption.
Qed.

Lemma series_add_zip (d : list Z) (o c : list xfloat) :
  series_add (zip d o) (zip d c) = zip d (zip_with xadd o c).
Proof.
  revert o c. induction d as [ | x d IH]; intros o c; [ reflexivity | ].
  destruct o as [ | a o]; [ reflexivity | ].
  destruct c as [ | b c]; [ destruct d; reflexivity | ].
  simpl. f_equal. apply IH.
Qed.

(** X1.  Whatever the order of the provider's columns, the returned series is in
    ascending date order, so that its last entry (the base FCF of a run) is
    the one of the latest date.  Its entries are those of the
    'Free Cash Flow' line when the statement has one, and otherwise the
    operating cash flow plus the capital expenditure, date by date. *)
Theorem historical_fcf_ascending (cash_flow : Statement) (s : list (Z * xfloat)) :
  get_historical_fcf cash_flow = Ok s ->
  StronglySorted (fun a b => (a.1 <= b.1)%Z) s
  /\ (forall e, last s = Some e -> forall e', e' ∈ s -> (e'.1 <= e.1)%Z)
  /\ ((exists fcf, lines cash_flow !! "Free Cash Flow" = Some fcf
                   /\ s ≡ₚ zip (dates cash_flow) fcf)
      \/ (lines cash_flow !! "Free Cash Flow" = None
          /\ exists ocf capex,
               lines cash_flow !! "Operating Cash Flow" = Some ocf
               /\ lines cash_flow !! "Capital Expenditure" = Some capex
               /\ s ≡ₚ zip (dates cash_flow) (zip_with xadd ocf capex))).
Proof.
  intros H. unfold get_historical_fcf in H. run_stage H. injection H as <-.
  split; [ apply sort_index_sorted | ].
  split; [ intros e; apply sorted_last_latest, sort_index_sorted | ].
  case_bool_decide as Hfcf.
  - left. destruct Hfcf as (fcf & Hfcf). exists fcf. split; [ exact Hfcf | ].
    unfold loc in Hstage. rewrite Hfcf in Hstage. injection Hstage as <-.
    apply sort_index_perm.
  - right. split; [ by apply eq_None_not_Some | ].
    run_stage Hstage. run_stage Hstage. injection Hstage as <-.
    unfold loc in Hstage0, Hstage1.
    destruct (lines cash_flow !! "Operating Cash Flow") as [ocf | ]; [ | discriminate ].
    destruct (lines cash_flow !! "Capital Expenditure") as [capex | ]; [ | discriminate ].
    injection Hstage0 as <-. injection Hstage1 as <-.
    exists ocf, capex. repeat split.
    rewrite sort_index_perm, series_add_zip. reflexivity.
Qed.

(** X2.  The only failure is a [KeyError], raised exactly when the statement has
    no 'Free Cash Flow' line and lacks the operating cash flow or the
    capital expenditure. *)
Theorem historical_fcf_key_error (cash_flow : Statement) :
  (lines cash_flow !! "Free Cash Flow" = None
   /\ (lines cash_flow !! "Operating Cash Flow" = None
       \/ lines cash_flow !! "Capital Expenditure" = None))
  <-> get_historical_fcf cash_flow = Raise KeyError.
Proof.
  unfold get_historical_fcf, loc. split.
  - intros (Hf & Ho). rewrite Hf. rewrite bool_decide_eq_false_2 by (intros [? ?]; discriminate).
    destruct (lines cash_flow !! "Operating Cash Flow"); [ | reflexivity ].
    destruct Ho as [ Ho | Ho ]; [ discriminate | ]. rewrite Ho. reflexivity.
  - intros H. case_bool_decide as Hfcf.
    + destruct Hfcf as (fcf & Hfcf). rewrite Hfcf in H. discriminate.
    + split; [ by apply eq_None_not_Some | ].
      destruct (lines cash_flow !! "Operating Cash Flow"); [ | left; reflexivity ].
      destruct (lines cash_flow !! "Capital Expenditure"); [ discriminate | right; reflexivity ].
Qed.

Lemma historical_fcf_ascending_witness :
  get_historical_fcf statement_3y
  = Ok [(2021%Z, Fin (dec 80 1)); (2022%Z, Fin (dec 70 1)); (2023%Z, Fin (dec 100 1))]
  /\ forall e, last [(2021%Z, Fin (dec 80 1)); (2022%Z, Fin (dec 70 1));
                     (2023%Z, Fin (dec 100 1))] = Some e ->
       forall e', e' ∈ [(2021%Z, Fin (dec 80 1)); (2022%Z, Fin (dec 70 1));
                        (2023%Z, Fin (dec 100 1))] -> (e'.1 <= e.1)%Z.
Proof.
  assert (Hrun : get_historical_fcf statement_3y
                 = Ok [(2021%Z, Fin (dec 80 1)); (2022%Z, Fin (dec 70 1));
                       (2023%Z, Fin (dec 100 1))]) by by_eval.
  split; [ exact Hrun | ].
  apply (historical_fcf_ascending statement_3y _ Hrun).
Defined.

Lemma historical_fcf_key_error_witness :
  get_historical_fcf {| dates := [2023%Z]; lines := ∅ |} = Raise KeyError.
Proof.
  apply (historical_fcf_key_error {| dates := [2023%Z]; lines := ∅ |}).
  split; [ reflexivity | left; reflexivity ].
Defined.

(** ** The rows of the statistics *)

Lemma column_stat_multiple (c : string) (values : list xfloat) :
  multiple (column_stat c values) = c.
Proof. unfold column_stat. destruct (length values =? 0)%nat; reflexivity. Qed.

Lemma column_stat_count (c : string) (values : list xfloat) :
  stat_count (column_stat c values) = length values.
Proof. unfold column_stat. destruct values; reflexivity. Qed.

Lemma stats_loop_names (df : list (gmap string pyval)) (cols : list string)
    (stats : list MultipleStat) :
  stats_loop df cols = Ok stats -> map multiple stats = cols.
Proof.
  revert stats. induction cols as [ | c cols IH]; intros stats H; simpl in H.
  - injection H as <-. reflexivity.
  - run_stage H. run_stage H. injection H as <-.
    simpl. rewrite column_stat_multiple. f_equal. apply IH. reflexivity.
Qed.

Lemma dropna_values_length (s : list pyval) :
  (length (dropna_values s) <= length s)%nat.
Proof.
  induction s as [ | v s IH]; [ reflexivity | ].
  rewrite dropna_values_cons. destruct (present v); simpl; lia.
Qed.

Lemma stats_loop_counts (df : list (gmap string pyval)) (cols : list string)
    (stats : list MultipleStat) :
  stats_loop df cols = Ok stats ->
  Forall (fun row => (stat_count row <= length df)%nat) stats.
Proof.
  revert stats. induction cols as [ | c cols IH]; intros stats H; simpl in H.
  - injection H as <-. constructor.
  - run_stage H. run_stage H. injection H as <-.
    constructor; [ | apply IH; reflexivity ].
    rewrite column_stat_count. unfold column in Hstage.
    destruct (has_column df c); [ | discriminate ]. injection Hstage as <-.
    etransitivity; [ apply dropna_values_length | ].
    rewrite length_map. reflexivity.
Qed.

Lemma multiple_cols_nodup : NoDup multiple_cols.
Proof. by_eval. Qed.

Lemma nodup_map_inj {A B} (f : A -> B) (l : list A) (x y : A) :
  NoDup (map f l) -> x ∈ l -> y ∈ l -> f x = f y -> x = y.
Proof.
  induction l as [ | a l IH]; simpl; intros Hnd Hx Hy Hf.
  - by apply elem_of_nil in Hx.
  - apply NoDup_cons in Hnd as (Ha & Hnd).
    apply elem_of_cons in Hx. apply elem_of_cons in Hy.
    destruct Hx as [ -> | Hx ], Hy as [ -> | Hy ].
    + reflexivity.
    + exfalso. apply Ha. rewrite Hf. change (map f l) with (f <$> l).
      apply list_elem_of_fmap_2, Hy.
    + exfalso. apply Ha. rewrite <- Hf. change (map f l) with (f <$> l).
      apply list_elem_of_fmap_2, Hx.
    + apply IH; assumption.
Qed.

(** ** What [value_target] writes and what it skips *)

(** X17.  Every entry of the returned valuations is one of 'PE', 'P/B' and
    'EV/EBITDA', and it is there only if the one row of statistics of its
    multiple has contributing peers (count not 0) and the target's own
    multiple is neither missing nor zero. *)
Theorem value_target_skip_policy (self : CompAnalysis) (m : method) (v : Valuations)
    (k : string) :
  value_target self m = Ok v ->
  is_Some (valuations v !! k) ->
  exists target stats row col,
    target_data self = Some target
    /\ calculate_multiples self = Ok stats
    /\ (k, col) ∈ [("PE", "pe_ratio"); ("P/B", "price_to_book");
                   ("EV/EBITDA", "ev_to_ebitda")]
    /\ row ∈ stats
    /\ multiple row = col
    /\ (forall row', row' ∈ stats -> multiple row' = col -> row' = row)
    /\ stat_count row <> 0%nat
    /\ truthy (dict_get target col) = true.
Proof.
  intros Hv Hk.
  destruct (value_target_entries self m v k Hv Hk)
    as (target & stats & row & Ht & Hs & Hrow & Hcount & _ & Hrule).
  assert (Huniq : forall row', row' ∈ stats -> multiple row' = multiple row -> row' = row).
  { intros row' Hrow' Hm. unfold calculate_multiples in Hs.
    destruct (comp_data self) as [df | ]; [ | discriminate ].
    apply (nodup_map_inj multiple stats); try assumption.
    rewrite (stats_loop_names _ _ _ Hs). apply multiple_cols_nodup. }
  destruct Hrule as [ (-> & Hm & Ht') | [ (-> & Hm & Ht') | (-> & Hm & Ht') ] ];
    exists target, stats, row; eexists;
    (split; [ exact Ht | ]); (split; [ exact Hs | ]);
    (split; [ | split; [ exact Hrow | split; [ exact Hm | split;
       [ rewrite <- Hm; exact Huniq | split; [ exact Hcount | exact Ht' ] ] ] ] ]).
  - apply list_elem_of_here.
  - apply list_elem_of_further, list_elem_of_here.
  - do 2 apply list_elem_of_further. apply list_elem_of_here.
Qed.

Lemma value_target_skip_policy_witness :
  exists target stats row col,
    target_data analysis_pe = Some target
    /\ calculate_multiples analysis_pe = Ok stats
    /\ ("PE", col) ∈ [("PE", "pe_ratio"); ("P/B", "price_to_book");
                      ("EV/EBITDA", "ev_to_ebitda")]
    /\ row ∈ stats
    /\ multiple row = col
    /\ (forall row', row' ∈ stats -> multiple row' = col -> row' = row)
    /\ stat_count row <> 0%nat
    /\ truthy (dict_get target col) = true.
Proof.
  apply (value_target_skip_policy analysis_pe Median
           {| v_method := Median;
              valuations :=
                {[ "PE" := ImpliedPrice (np_dec 625 10) (np_dec 25 1) (num_val 50 1) ]} |}).
  - exact pe_rule_example.
  - eexists. apply lookup_singleton_eq.
Defined.

(** X18.  [value_target] raises [ValueError] before [fetch_data] has run;
    afterwards, with at least one peer fetched and a target that has a
    price and an enterprise value, it returns. *)
Theorem value_target_returns (self : CompAnalysis) (m : method) :
  ((target_data self = None \/ comp_data self = None) ->
   value_target self m = Raise ValueError)
  /\ (forall target df p e,
        target_data self = Some target ->
        comp_data self = Some df ->
        df <> [] ->
        Forall is_metrics df ->
        dict_get target "price" = VNum p ->
        dict_get target "enterprise_value" = VNum e ->
        exists v, value_target self m = Ok v /\ v_method v = m).
Proof.
  split.
  - intros [ H | H ]; unfold value_target; rewrite H;
      [ reflexivity | destruct (target_data self); reflexivity ].
  - intros target df p e Ht Hd Hne Hall Hp He.
    destruct (value_target_total self m target df p e Ht Hd Hne Hall Hp He) as (v & Hv).
    exists v. split; [ exact Hv | ].
    unfold value_target in Hv. rewrite Ht, Hd in Hv.
    run_stage Hv. run_stage Hv. injection Hv as <-. reflexivity.
Qed.

Lemma value_target_returns_witness :
  exists v, value_target analysis_priced Median = Ok v /\ v_method v = Median.
Proof.
  destruct (value_target_returns analysis_priced Median) as (_ & H).
  eapply H.
  - reflexivity.
  - reflexivity.
  - discriminate.
  - repeat constructor; eexists; reflexivity.
  - vm_compute. reflexivity.
  - vm_compute. reflexivity.
Defined.

(** ** Statistics after [fetch_data] *)

Lemma fetched_rows (comps : list (result (gmap string pyval))) :
  let fetched := fun c : result (gmap string pyval) =>
                   match c with
                   | Ok i => Some (_extract_metrics i)
                   | Raise _ => None
                   end in
  Forall is_metrics (omap fetched comps)
  /\ (length (omap fetched comps) <= length comps)%nat
  /\ ((exists i, Ok i ∈ comps) -> omap fetched comps <> [])
  /\ ((forall i, Ok i ∉ comps) -> omap fetched comps = []).
Proof.
  intros fetched. induction comps as [ | c comps IH].
  - repeat split; try constructor. intros (i & Hi). by apply elem_of_nil in Hi.
  - destruct IH as (Hall & Hlen & Hsome & Hnone).
    change (omap fetched (c :: comps))
      with (match fetched c with
            | Some y => y :: omap fetched comps
            | None => omap fetched comps
            end).
    destruct c as [i | e]; simpl fetched; cbv iota.
    + split; [ constructor; [ exists i; reflexivity | exact Hall ] | ].
      split; [ simpl; lia | ]. split; [ discriminate | ].
      intros H. exfalso. apply (H i), list_elem_of_here.
    + split; [ exact Hall | ]. split; [ simpl; lia | ]. split.
      * intros (i & Hi). apply Hsome. exists i.
        apply elem_of_cons in Hi. destruct Hi as [ Hi | Hi ]; [ discriminate | exact Hi ].
      * intros H. apply Hnone. intros i Hi. apply (H i), list_elem_of_further, Hi.
Qed.

(** X13.  After [fetch_data], [calculate_multiples] returns one row per multiple,
    in the order of the seven multiples, as soon as one comp was fetched,
    and no row counts more peers than there are comp tickers; when every
    comp fetch failed (or there is no comp ticker) it raises [KeyError]. *)
Theorem multiples_after_fetch (target_info : gmap string pyval)
    (comps : list (result (gmap string pyval))) :
  ((exists i, Ok i ∈ comps) ->
   exists stats,
     calculate_multiples (fetch_data target_info comps) = Ok stats
     /\ map multiple stats = multiple_cols
     /\ Forall (fun row => (stat_count row <= length comps)%nat) stats)
  /\ ((forall i, Ok i ∉ comps) ->
      calculate_multiples (fetch_data target_info comps) = Raise KeyError).
Proof.
  destruct (fetched_rows comps) as (Hall & Hlen & Hsome & Hnone).
  split.
  - intros Hok. specialize (Hsome Hok).
    eexists. split; [ apply (calculate_multiples_ok (fetch_data target_info comps) _ eq_refl Hsome Hall) | ].
    split.
    + rewrite map_map. unfold multiple_cols. simpl.
      rewrite !column_stat_multiple. reflexivity.
    + rewrite Forall_forall. intros row Hrow.
      change (map ?f multiple_cols) with (f <$> multiple_cols) in Hrow.
      apply list_elem_of_fmap in Hrow. destruct Hrow as (c & -> & _).
      rewrite column_stat_count.
      etransitivity; [ apply dropna_values_length | ]. rewrite length_map. exact Hlen.
  - intros Hfail. apply calculate_multiples_no_rows. simpl. rewrite (Hnone Hfail).
    reflexivity.
Qed.

Lemma multiples_after_fetch_witness :
  exists stats,
    calculate_multiples analysis_priced = Ok stats
    /\ map multiple stats = multiple_cols
    /\ Forall (fun row => (stat_count row <= 4)%nat) stats.
Proof.
  apply (multiples_after_fetch
           {[ "currentPrice" := num_val 50 1; "trailingPE" := num_val 20 1;
              "enterpriseValue" := num_val 1000 1;
              "enterpriseToEbitda" := num_val 10 1 ]}
           [Ok {[ "trailingPE" := num_val 25 1; "enterpriseToEbitda" := num_val 12 1 ]};
            Raise ValueError;
            Ok {[ "trailingPE" := num_val 15 1; "enterpriseToEbitda" := num_val 8 1 ]};
            Ok ∅]).
  exists ∅. do 3 apply list_elem_of_further. apply list_elem_of_here.
Defined.

(** ** The P/E rule *)

Lemma value_row_pe (target : gmap string pyval) (m : method)
    (vs vs' : gmap string implied) (row : MultipleStat) :
  value_row target m vs row = Ok vs' ->
  vs' !! "PE" = vs !! "PE"
  \/ (multiple row = "pe_ratio"
      /\ exists c p pe q,
           present (stat_of row m) = Some c
           /\ dict_get target "price" = VNum p
           /\ dict_get target "pe_ratio" = VNum pe
           /\ is_zero (val pe) = false
           /\ ndiv p pe = Ok q
           /\ vs' !! "PE" = Some (ImpliedPrice (nmul (Np c) q) (Np c) (VNum p))).
Proof.
  intros H. unfold value_row in H.
  destruct (present (stat_of row m)) as [c | ] eqn:Ec;
    [ | injection H as <-; left; reflexivity ].
  case_bool_decide as Hpe.
  { destruct (truthy (dict_get target "pe_ratio")) eqn:Et;
      [ | rewrite bind_ok in H; injection H as <-; left; reflexivity ].
    run_stage H. destruct a as [ | e]; [ injection H as <-; left; reflexivity | ].
    destruct (truthy (VNum e)); injection H as <-; [ | left; reflexivity ].
    right. split; [ exact Hpe | ].
    destruct (truthy_num _ Et) as (pe & Hpe' & Hz). rewrite Hpe' in Hstage.
    destruct (dict_get target "price") as [ | p] eqn:Ep; [ discriminate | ].
    simpl in Hstage. run_stage Hstage. injection Hstage as ->.
    exists c, p, pe, e. repeat split; try assumption.
    apply lookup_insert_eq. }
  case_bool_decide as Hpb.
  { destruct (truthy (dict_get target "price_to_book"));
      [ | rewrite bind_ok in H; injection H as <-; left; reflexivity ].
    run_stage H. destruct a as [ | e]; [ injection H as <-; left; reflexivity | ].
    destruct (truthy (VNum e)); injection H as <-; [ | left; reflexivity ].
    left. apply lookup_insert_ne. discriminate. }
  case_bool_decide as Hev.
  { destruct (truthy (dict_get target "ev_to_ebitda"));
      [ | injection H as <-; left; reflexivity ].
    run_stage H. destruct a as [ | e]; [ discriminate | ]. injection H as <-.
    left. apply lookup_insert_ne. discriminate. }
  injection H as <-. left. reflexivity.
Qed.

Lemma value_loop_pe (target : gmap string pyval) (m : method)
    (stats : list MultipleStat) (vs vs' : gmap string implied) :
  value_loop target m vs stats = Ok vs' ->
  vs' !! "PE" = vs !! "PE"
  \/ exists row c p pe q,
       row ∈ stats /\ multiple row = "pe_ratio"
       /\ present (stat_of row m) = Some c
       /\ dict_get target "price" = VNum p
       /\ dict_get target "pe_ratio" = VNum pe
       /\ is_zero (val pe) = false
       /\ ndiv p pe = Ok q
       /\ vs' !! "PE" = Some (ImpliedPrice (nmul (Np c) q) (Np c) (VNum p)).
Proof.
  revert vs. induction stats as [ | row stats IH]; intros vs H; simpl in H.
  - injection H as <-. left. reflexivity.
  - run_stage H. destruct (IH _ H) as [ Hk | (r & c & p & pe & q & Hr & Hrest) ].
    + destruct (value_row_pe _ _ _ _ _ Hstage)
        as [ Hk' | (Hm & c & p & pe & q & Hc & Hp & Hpe & Hz & Hq & He) ].
      * left. congruence.
      * right. exists row, c, p, pe, q.
        split; [ apply list_elem_of_here | ]. rewrite Hk. repeat split; assumption.
    + right. exists r, c, p, pe, q. split; [ apply list_elem_of_further, Hr | exact Hrest ].
Qed.

(** X19.  The 'PE' entry, when there is one, holds the target's price, the peer
    statistic of the P/E row and, as implied price, that statistic times
    price / P/E of the target; for finite numbers this is
    statistic * (price / P/E). *)
Theorem pe_rule_formula (self : CompAnalysis) (m : method) (v : Valuations) (e : implied) :
  value_target self m = Ok v ->
  valuations v !! "PE" = Some e ->
  exists target stats row c p pe q,
    target_data self = Some target
    /\ calculate_multiples self = Ok stats
    /\ row ∈ stats /\ multiple row = "pe_ratio"
    /\ present (stat_of row m) = Some c
    /\ dict_get target "price" = VNum p
    /\ dict_get target "pe_ratio" = VNum pe
    /\ ndiv p pe = Ok q
    /\ e = ImpliedPrice (nmul (Np c) q) (Np c) (VNum p)
    /\ (forall c' p' pe', c = Fin c' -> val p = Fin p' -> val pe = Fin pe' ->
          val (nmul (Np c) q) = Fin (c' * (p' / pe'))).
Proof.
  intros Hv He. unfold value_target in Hv.
  destruct (target_data self) as [target | ] eqn:Et; [ | discriminate ].
  destruct (comp_data self) as [df | ] eqn:Ed; [ | discriminate ].
  run_stage Hv. run_stage Hv. injection Hv as <-. simpl in He.
  destruct (value_loop_pe _ _ _ _ _ Hstage0)
    as [ Hk | (row & c & p & pe & q & Hr & Hm & Hc & Hp & Hpe & Hz & Hq & Hentry) ].
  { rewrite Hk, lookup_empty in He. discriminate. }
  exists target, a, row, c, p, pe, q.
  rewrite Hentry in He. injection He as <-.
  repeat split; try assumption; try reflexivity.
  intros c' p' pe' -> Hp' Hpe'.
  destruct (ndiv_nonzero p pe Hz) as (q' & Hq' & Hval).
  assert (q' = q) by congruence. subst q'.
  unfold nmul, lift2. simpl. rewrite Hval, Hp', Hpe'. simpl.
  rewrite Hpe' in Hz. simpl in Hz. rewrite Hz. reflexivity.
Qed.

Lemma pe_rule_formula_witness :
  exists target stats row c p pe q,
    target_data analysis_pe = Some target
    /\ calculate_multiples analysis_pe = Ok stats
    /\ row ∈ stats /\ multiple row = "pe_ratio"
    /\ present (stat_of row Median) = Some c
    /\ dict_get target "price" = VNum p
    /\ dict_get target "pe_ratio" = VNum pe
    /\ ndiv p pe = Ok q
    /\ ImpliedPrice (np_dec 625 10) (np_dec 25 1) (num_val 50 1)
       = ImpliedPrice (nmul (Np c) q) (Np c) (VNum p)
    /\ (forall c' p' pe', c = Fin c' -> val p = Fin p' -> val pe = Fin pe' ->
          val (nmul (Np c) q) = Fin (c' * (p' / pe'))).
Proof.
  apply (pe_rule_formula analysis_pe Median
           {| v_method := Median;
              valuations :=
                {[ "PE" := ImpliedPrice (np_dec 625 10) (np_dec 25 1) (num_val 50 1) ]} |}).
  - exact pe_rule_example.
  - apply lookup_singleton_eq.
Defined.

(** ** Statistics that do not depend on the order of the peers *)

Lemma xle_antisym (x y : xfloat) : xle x y = true -> xle y x = true -> x = y.
Proof.
  destruct x as [a | | | ], y as [b | | | ]; simpl; try done.
  intros H1 H2. apply bool_decide_eq_true_1 in H1, H2.
  f_equal. apply Qcle_antisym; assumption.
Qed.

Lemma ascending_head_least (x : xfloat) (l : list xfloat) :
  is_nan x = false -> ascending (x :: l) -> Forall (fun y => xle x y = true) (x :: l).
Proof.
  intros Hx Hasc. constructor; [ apply xle_refl, Hx | ].
  revert x Hx Hasc. induction l as [ | y l IH]; intros x Hx Hasc; [ constructor | ].
  inversion Hasc as [ | | ? ? ? Hxy Hasc' ]; subst.
  constructor; [ exact Hxy | ].
  assert (Hy : is_nan y = false) by (destruct x, y; simpl in *; done).
  eapply Forall_impl; [ apply (IH y Hy Hasc') | ].
  intros z Hz. simpl in Hz. eapply xle_trans; eassumption.
Qed.

Lemma ascending_tail (x : xfloat) (l : list xfloat) : ascending (x :: l) -> ascending l.
Proof. inversion 1; [ constructor | assumption ]. Qed.

Lemma ascending_unique (l l' : list xfloat) :
  Forall (fun y => is_nan y = false) l ->
  l ≡ₚ l' -> ascending l -> ascending l' -> l = l'.
Proof.
  revert l'. induction l as [ | x l IH]; intros l' Hnan Hperm Hl Hl'.
  - apply Permutation_nil_l in Hperm. congruence.
  - destruct l' as [ | y l'].
    { symmetry in Hperm. apply Permutation_nil_l in Hperm. discriminate. }
    inversion Hnan as [ | ? ? Hx Hnan' ]; subst.
    assert (Hnan2 : Forall (fun y => is_nan y = false) (y :: l'))
      by (rewrite <- Hperm; exact Hnan).
    inversion Hnan2 as [ | ? ? Hy _ ]; subst.
    pose proof (ascending_head_least x l Hx Hl) as Hmin.
    pose proof (ascending_head_least y l' Hy Hl') as Hmin'.
    assert (Hxy : x = y).
    { apply xle_antisym.
      - rewrite Forall_forall in Hmin. apply Hmin. rewrite Hperm. apply list_elem_of_here.
      - rewrite Forall_forall in Hmin'. apply Hmin'. rewrite <- Hperm.
        apply list_elem_of_here. }
    subst y. f_equal.
    apply IH; [ exact Hnan' | | eapply ascending_tail; eassumption
              | eapply ascending_tail; eassumption ].
    eapply Permutation_cons_inv. exact Hperm.
Qed.

Lemma dropna_not_nan (s : list xfloat) : Forall (fun y => is_nan y = false) (dropna s).
Proof.
  unfold dropna. rewrite Forall_forall. intros x Hx.
  apply list_elem_of_filter in Hx. apply Hx.
Qed.

Lemma median_perm (v v' : list xfloat) : v ≡ₚ v' -> median v = median v'.
Proof.
  intros Hperm. unfold median.
  assert (Hd : dropna v ≡ₚ dropna v') by (unfold dropna; rewrite Hperm; reflexivity).
  assert (Hs : sort_values (dropna v) = sort_values (dropna v')).
  { apply ascending_unique.
    - rewrite sort_values_perm. apply dropna_not_nan.
    - rewrite !sort_values_perm. exact Hd.
    - apply sort_values_ascending, dropna_not_nan.
    - apply sort_values_ascending, dropna_not_nan. }
  rewrite Hs. reflexivity.
Qed.

Lemma series_min_least (v : list xfloat) :
  Forall (fun y => is_nan y = false) v -> v <> [] ->
  series_min v ∈ v /\ Forall (fun y => xle (series_min v) y = true) v.
Proof.
  intros Hv Hne. destruct v as [ | x r]; [ contradiction | ].
  inversion Hv; subst. apply fold_min_spec; assumption.
Qed.

Lemma series_max_greatest (v : list xfloat) :
  Forall (fun y => is_nan y = false) v -> v <> [] ->
  series_max v ∈ v /\ Forall (fun y => xle y (series_max v) = true) v.
Proof.
  intros Hv Hne. destruct v as [ | x r]; [ contradiction | ].
  inversion Hv; subst. apply fold_max_spec; assumption.
Qed.

Lemma series_min_perm (v v' : list xfloat) :
  Forall (fun y => is_nan y = false) v -> v ≡ₚ v' -> series_min v = series_min v'.
Proof.
  intros Hv Hperm. destruct v as [ | x r].
  { apply Permutation_nil_l in Hperm. subst v'. reflexivity. }
  assert (Hv' : Forall (fun y => is_nan y = false) v') by (rewrite <- Hperm; exact Hv).
  assert (Hne' : v' <> []).
  { intros ->. symmetry in Hperm. apply Permutation_nil_l in Hperm. discriminate. }
  destruct (series_min_least (x :: r) Hv) as (Hin & Hall); [ discriminate | ].
  destruct (series_min_least v' Hv' Hne') as (Hin' & Hall').
  rewrite Forall_forall in Hall, Hall'.
  apply xle_antisym; [ apply Hall; rewrite Hperm; exact Hin'
                     | apply Hall'; rewrite <- Hperm; exact Hin ].
Qed.

Lemma series_max_perm (v v' : list xfloat) :
  Forall (fun y => is_nan y = false) v -> v ≡ₚ v' -> series_max v = series_max v'.
Proof.
  intros Hv Hperm. destruct v as [ | x r].
  { apply Permutation_nil_l in Hperm. subst v'. reflexivity. }
  assert (Hv' : Forall (fun y => is_nan y = false) v') by (rewrite <- Hperm; exact Hv).
  assert (Hne' : v' <> []).
  { intros ->. symmetry in Hperm. apply Permutation_nil_l in Hperm. discriminate. }
  destruct (series_max_greatest (x :: r) Hv) as (Hin & Hall); [ discriminate | ].
  destruct (series_max_greatest v' Hv' Hne') as (Hin' & Hall').
  rewrite Forall_forall in Hall, Hall'.
  apply xle_antisym; [ apply Hall'; rewrite <- Hperm; exact Hin
                     | apply Hall; rewrite Hperm; exact Hin' ].
Qed.

Lemma column_values_perm (df df' : list (gmap string pyval)) (c : string) :
  df ≡ₚ df' ->
  dropna_values (map (fun row => dict_get row c) df)
  ≡ₚ dropna_values (map (fun row => dict_get row c) df').
Proof.
  intros Hperm. unfold dropna_values.
  change (map ?f df) with (f <$> df). change (map ?f df') with (f <$> df').
  rewrite Hperm. reflexivity.
Qed.

(** X14.  The count, the median, the min and the max of every multiple are the
    same whatever the order in which the peers were fetched. *)
Theorem stats_order_independent (self self' : CompAnalysis)
    (df df' : list (gmap string pyval)) :
  comp_data self = Some df ->
  comp_data self' = Some df' ->
  df ≡ₚ df' ->
  df <> [] ->
  Forall is_metrics df ->
  exists stats stats',
    calculate_multiples self = Ok stats
    /\ calculate_multiples self' = Ok stats'
    /\ Forall2 (fun r r' =>
                  multiple r = multiple r'
                  /\ stat_count r = stat_count r'
                  /\ stat_median r = stat_median r'
                  /\ stat_min r = stat_min r'
                  /\ stat_max r = stat_max r') stats stats'.
Proof.
  intros Hd Hd' Hperm Hne Hall.
  assert (Hne' : df' <> []).
  { intros ->. apply Permutation_nil_r in Hperm. contradiction. }
  assert (Hall' : Forall is_metrics df') by (rewrite <- Hperm; exact Hall).
  eexists. eexists.
  split; [ apply (calculate_multiples_ok self df Hd Hne Hall) | ].
  split; [ apply (calculate_multiples_ok self' df' Hd' Hne' Hall') | ].
  change (map ?f multiple_cols) with (f <$> multiple_cols).
  apply Forall2_fmap, Forall_Forall2_diag. rewrite Forall_forall. intros c _.
  pose proof (column_values_perm df df' c Hperm) as Hv.
  pose proof (dropna_values_present (map (fun row => dict_get row c) df)) as Hnan.
  remember (dropna_values (map (fun row => dict_get row c) df)) as v eqn:Ev.
  remember (dropna_values (map (fun row => dict_get row c) df')) as v' eqn:Ev'.
  clear Ev Ev'.
  pose proof (Permutation_length Hv) as Hlen.
  rewrite !column_stat_multiple, !column_stat_count.
  split; [ reflexivity | ]. split; [ exact Hlen | ].
  unfold column_stat. rewrite <- Hlen.
  destruct (length v =? 0)%nat; simpl; [ repeat split | ].
  rewrite (median_perm v v' Hv), (series_min_perm v v' Hnan Hv),
    (series_max_perm v v' Hnan Hv).
  repeat split.
Qed.

Lemma stats_order_independent_witness :
  exists stats stats',
    calculate_multiples analysis_priced = Ok stats
    /\ calculate_multiples
         {| target_data := None;
            comp_data := Some (rev [_extract_metrics
                                      {[ "trailingPE" := num_val 25 1;
                                         "enterpriseToEbitda" := num_val 12 1 ]};
                                    _extract_metrics
                                      {[ "trailingPE" := num_val 15 1;
                                         "enterpriseToEbitda" := num_val 8 1 ]};
                                    _extract_metrics ∅]) |} = Ok stats'
    /\ Forall2 (fun r r' =>
                  multiple r = multiple r'
                  /\ stat_count r = stat_count r'
                  /\ stat_median r = stat_median r'
                  /\ stat_min r = stat_min r'
                  /\ stat_max r = stat_max r') stats stats'.
Proof.
  eapply stats_order_independent.
  - reflexivity.
  - reflexivity.
  - apply Permutation_rev.
  - discriminate.
  - repeat (constructor; [ eexists; reflexivity | ]). constructor.
Defined.

(** ** The median between the extremes, and the standard deviation *)

Lemma qc_midpoint_bounds (lo hi a b : Qc) :
  lo <= a -> lo <= b -> a <= hi -> b <= hi ->
  lo <= (a + b) / 2 /\ (a + b) / 2 <= hi.
Proof.
  intros Hla Hlb Hah Hbh.
  assert (H2 : (2 : Qc) <> 0) by by_eval.
  assert (Hinv : 0 <= / 2) by by_eval.
  split.
  - replace lo with ((lo + lo) / 2) by (field; exact H2).
    unfold Qcdiv. apply Qcmult_le_compat_r; [ | exact Hinv ].
    apply Qcplus_le_compat; assumption.
  - replace hi with ((hi + hi) / 2) by (field; exact H2).
    unfold Qcdiv. apply Qcmult_le_compat_r; [ | exact Hinv ].
    apply Qcplus_le_compat; assumption.
Qed.

Lemma nth_elem_of (v : list xfloat) (i : nat) :
  (i < length v)%nat -> nth i v NaN ∈ v.
Proof. intros Hi. apply list_elem_of_In, nth_In, Hi. Qed.

(** X15.  For finite values the median lies between the min and the max. *)
Theorem median_between_min_max (values : list xfloat) :
  Forall (fun x => exists q, x = Fin q) values ->
  values <> [] ->
  xle (series_min values) (median values) = true
  /\ xle (median values) (series_max values) = true.
Proof.
  intros Hfin Hne.
  pose proof (finite_not_nan values Hfin) as Hnan.
  destruct (series_min_least values Hnan Hne) as (Hlo_in & Hlo).
  destruct (series_max_greatest values Hnan Hne) as (Hhi_in & Hhi).
  destruct (median_middle values Hnan Hne) as (s & Hperm & _ & ->).
  assert (Hlen : length s = length values) by (apply Permutation_length, Hperm).
  assert (Hpos : (0 < length values)%nat) by (destruct values; [ contradiction | simpl; lia ]).
  assert (Hhalf : (Nat.div (length values) 2 < length values)%nat) by (apply Nat.div_lt; lia).
  rewrite Forall_forall in Hlo, Hhi, Hfin.
  assert (Hin : forall i, (i < length values)%nat -> nth i s NaN ∈ values).
  { intros i Hi. rewrite <- Hperm. apply nth_elem_of. lia. }
  destruct (Nat.odd (length values)).
  - split; [ apply Hlo | apply Hhi ]; apply Hin, Hhalf.
  - pose proof (Hin (Nat.div (length values) 2 - 1)%nat ltac:(lia)) as Ha.
    pose proof (Hin (Nat.div (length values) 2) Hhalf) as Hb.
    pose proof (Hlo _ Ha) as Hla. pose proof (Hlo _ Hb) as Hlb.
    pose proof (Hhi _ Ha) as Hah. pose proof (Hhi _ Hb) as Hbh.
    destruct (Hfin _ Ha) as (a & Ea). destruct (Hfin _ Hb) as (b & Eb).
    destruct (Hfin _ Hlo_in) as (lo & Elo). destruct (Hfin _ Hhi_in) as (hi & Ehi).
    rewrite Ea, Eb, Elo in *. rewrite Ehi in *. clear Ea Eb Elo Ehi.
    simpl in Hla, Hlb, Hah, Hbh.
    apply bool_decide_eq_true_1 in Hla, Hlb, Hah, Hbh.
    destruct (qc_midpoint_bounds lo hi a b Hla Hlb Hah Hbh) as (H1 & H2).
    unfold xadd, xdiv. rewrite bool_decide_eq_false_2 by by_eval.
    simpl. split; apply bool_decide_eq_true_2; assumption.
Qed.

Lemma median_between_min_max_witness :
  xle (series_min [Fin (dec 25 1); Fin (dec 15 1); Fin (dec 40 1); Fin (dec 8 1)])
      (median [Fin (dec 25 1); Fin (dec 15 1); Fin (dec 40 1); Fin (dec 8 1)]) = true
  /\ xle (median [Fin (dec 25 1); Fin (dec 15 1); Fin (dec 40 1); Fin (dec 8 1)])
         (series_max [Fin (dec 25 1); Fin (dec 15 1); Fin (dec 40 1); Fin (dec 8 1)]) = true.
Proof.
  apply median_between_min_max.
  - repeat (constructor; [ eexists; reflexivity | ]). constructor.
  - discriminate.
Defined.

Lemma qc_square_nonneg (d : Qc) : 0 <= d * d.
Proof.
  destruct (Qclt_le_dec d 0) as [ Hneg | Hpos ].
  - assert (Hnd : 0 <= - d).
    { apply Qclt_le_weak. apply (Qcplus_lt_mono_r _ _ d).
      replace (- d + d) with 0 by ring. rewrite Qcplus_0_l. exact Hneg. }
    replace (d * d) with (- d * - d) by ring.
    replace 0 with (0 * - d) by ring.
    apply Qcmult_le_compat_r; assumption.
  - replace 0 with (0 * d) by ring. apply Qcmult_le_compat_r; assumption.
Qed.

Lemma fold_sum_finite (v : list xfloat) (acc : Qc) :
  Forall (fun x => exists q, x = Fin q /\ 0 <= q) v ->
  0 <= acc ->
  exists s, fold_left xadd v (Fin acc) = Fin s /\ 0 <= s.
Proof.
  intros Hv. revert acc. induction Hv as [ | x v (q & -> & Hq) _ IH]; intros acc Hacc; simpl.
  - exists acc. split; [ reflexivity | exact Hacc ].
  - apply IH. replace 0 with (0 + 0) by ring. apply Qcplus_le_compat; assumption.
Qed.

Lemma fold_sum_fin (v : list xfloat) (acc : Qc) :
  Forall (fun x => exists q, x = Fin q) v ->
  exists s, fold_left xadd v (Fin acc) = Fin s.
Proof.
  intros Hv. revert acc. induction Hv as [ | x v (q & ->) _ IH]; intros acc; simpl.
  - exists acc. reflexivity.
  - apply IH.
Qed.

Lemma of_nat_positive (n : nat) :
  (0 < n)%nat -> exists k, of_nat n = Fin k /\ 0 < k.
Proof.
  intros Hn. exists (Qc_of_Z (Z.of_nat n)). split; [ reflexivity | ].
  unfold Qclt. simpl. unfold Qlt. simpl. lia.
Qed.

Lemma series_mean_fin (v : list xfloat) :
  Forall (fun x => exists q, x = Fin q) v -> v <> [] ->
  exists q, series_mean v = Fin q.
Proof.
  intros Hv Hne. unfold series_mean, series_sum.
  destruct (fold_sum_fin v 0 Hv) as (s & ->).
  destruct (of_nat_positive (length v)) as (k & -> & Hk).
  { destruct v; [ contradiction | simpl; lia ]. }
  simpl. rewrite bool_decide_eq_false_2; [ eexists; reflexivity | ].
  intros ->. exact (Qclt_not_eq _ _ Hk eq_refl).
Qed.

Lemma fold_sum_qsum (qs : list Qc) (acc : Qc) :
  fold_left xadd (map Fin qs) (Fin acc) = Fin (acc + qsum qs).
Proof.
  revert acc. induction qs as [ | q qs IH]; intros acc; simpl.
  - f_equal. ring.
  - rewrite IH. f_equal. ring.
Qed.

Lemma series_sum_qsum (qs : list Qc) : series_sum (map Fin qs) = Fin (qsum qs).
Proof. unfold series_sum. rewrite fold_sum_qsum. f_equal. ring. Qed.

Lemma series_mean_sample (qs : list Qc) :
  qs <> [] -> series_mean (map Fin qs) = Fin (sample_mean qs).
Proof.
  intros Hne. unfold series_mean, sample_mean. rewrite series_sum_qsum, length_map.
  destruct (of_nat_positive (length qs)) as (k & Hk & Hpos).
  { destruct qs; [ contradiction | simpl; lia ]. }
  injection Hk as Hk. unfold of_nat. simpl. rewrite bool_decide_eq_false_2; [ reflexivity | ].
  rewrite Hk. intros ->. exact (Qclt_not_eq _ _ Hpos eq_refl).
Qed.

Lemma squared_deviations (avg : Qc) (qs : list Qc) :
  map (fun x => xmul (xsub (Fin avg) x) (xsub (Fin avg) x)) (map Fin qs)
  = map Fin (map (fun x => (x - avg) * (x - avg)) qs).
Proof.
  induction qs as [ | q qs IH]; [ reflexivity | ].
  cbn [map]. rewrite IH. f_equal. simpl. f_equal. ring.
Qed.

Lemma qsum_nonneg (l : list Qc) : Forall (fun x => 0 <= x) l -> 0 <= qsum l.
Proof.
  induction 1 as [ | x l Hx _ IH]; simpl; [ apply Qcle_refl | ].
  replace 0 with (0 + 0) by ring. apply Qcplus_le_compat; assumption.
Qed.

Lemma series_var_sample (qs : list Qc) :
  (2 <= length qs)%nat ->
  series_var (map Fin qs) = Fin (sample_variance qs) /\ 0 <= sample_variance qs.
Proof.
  intros Hlen. unfold series_var, sample_variance. rewrite length_map.
  replace (length qs <=? 1)%nat with false by (symmetry; apply Nat.leb_gt; lia).
  cbv zeta. rewrite series_mean_sample by (destruct qs; [ simpl in Hlen; lia | discriminate ]).
  rewrite squared_deviations, series_sum_qsum.
  destruct (of_nat_positive (length qs - 1)) as (k & Hk & Hpos); [ lia | ].
  injection Hk as Hk. unfold of_nat. rewrite Hk.
  assert (Hk0 : k <> 0) by (intros ->; exact (Qclt_not_eq _ _ Hpos eq_refl)).
  simpl. rewrite bool_decide_eq_false_2 by exact Hk0.
  split; [ reflexivity | ].
  unfold Qcdiv. replace 0 with (0 * / k) by ring.
  apply Qcmult_le_compat_r; [ | apply Qclt_le_weak, Qcinv_pos, Hpos ].
  apply qsum_nonneg. rewrite Forall_forall. intros y Hy.
  change (map ?f qs) with (f <$> qs) in Hy.
  apply list_elem_of_fmap in Hy. destruct Hy as (x & -> & _). apply qc_square_nonneg.
Qed.

(** X16.  The [std] entry of a row of the statistics is the root of the
    sample variance (ddof = 1) of the contributing values, the sum of the
    squared deviations from their mean divided by [count - 1], which is
    not negative; with a single contributing value it is NaN, and with none
    it is [None]. *)
Theorem std_sample_variance (col : string) (qs : list Qc) :
  (qs = [] -> stat_std (column_stat col (map Fin qs)) = None)
  /\ (length qs = 1%nat ->
      stat_std (column_stat col (map Fin qs)) = Some (Sqrt NaN))
  /\ ((2 <= length qs)%nat ->
      stat_std (column_stat col (map Fin qs)) = Some (Sqrt (Fin (sample_variance qs)))
      /\ 0 <= sample_variance qs
      /\ root_is_nan (Sqrt (Fin (sample_variance qs))) = false).
Proof.
  split; [ | split ].
  - intros ->. reflexivity.
  - intros Hlen. destruct qs as [ | q [ | ? ? ] ]; try discriminate. reflexivity.
  - intros Hlen. destruct (series_var_sample qs Hlen) as (Hvar & Hpos).
    unfold column_stat. rewrite length_map.
    replace (length qs =? 0)%nat with false by (symmetry; apply Nat.eqb_neq; lia).
    simpl. unfold series_std. rewrite Hvar.
    split; [ reflexivity | ]. split; [ exact Hpos | ].
    simpl. apply bool_decide_eq_false_2. apply Qcle_not_lt, Hpos.
Qed.

Lemma std_sample_variance_witness :
  stat_std (column_stat "pe_ratio" (map Fin [dec 25 1; dec 15 1]))
  = Some (Sqrt (Fin (dec 50 1)))
  /\ stat_std (column_stat "pe_ratio" (map Fin [dec 25 1])) = Some (Sqrt NaN)
  /\ stat_std (column_stat "pe_ratio" (map Fin [])) = None.
Proof.
  destruct (std_sample_variance "pe_ratio" [dec 25 1; dec 15 1]) as (_ & _ & H2).
  destruct (std_sample_variance "pe_ratio" [dec 25 1]) as (_ & H1 & _).
  destruct (std_sample_variance "pe_ratio" []) as (H0 & _).
  split; [ | split ].
  - destruct H2 as (H2 & _); [ simpl; lia | ].
    rewrite H2. by_eval.
  - apply H1. reflexivity.
  - apply H0. reflexivity.
Defined.

(** ** The growth rate as the clamped middle value *)



